(** * Normalization and merge engine of the sourcing tool

    A shallow embedding of [normalizeData] (with its inner helper
    [getMasterKey]) and [generateCondensedData] from
    [src/Source tool/main.js], and the properties of the header
    canonicalizer, the row mapper, the merge engine and the condensed
    projector; then the page around them: the file list, the two [async]
    button handlers and the exports.

    Modelling conventions.
    - A JavaScript string is a [string]: an encoding of its characters in
      which an ASCII character is its own byte, compared as a whole by
      [===].  The built-ins [toLowerCase], [toUpperCase] and [trim] are
      the engine's; they are kept abstract behind the class [JsStringOps],
      of which only this is used: on a string of ASCII characters they are
      the ASCII functions of [JsString] (white space is TAB, LF, VT, FF, CR
      and SPACE; the letters are A-Z and a-z).
    - A cell value is a [value]: undefined, null, a boolean, a number or a
      string; a read can also give a member inherited from
      [Object.prototype] (a function or an object, which is truthy and
      neither undefined nor a string).  Numbers are kept abstract behind
      the class [JsNumber], which supplies the two things the program asks
      of a number: its truthiness and its string conversion.  [Z] is an
      instance.
    - A plain object used as a record is an association list with unique
      keys, in the order in which [Object.keys] enumerates it ([alist]); so
      is the [Map] that holds the resident records.  A read [o[k]] of a key
      that [o] does not own gives the member of that name inherited from
      [Object.prototype], if there is one.  An object enumerates its keys
      in insertion order, except the integer-like ones (array indices),
      which come first, and an assignment to [__proto__] adds no key: the
      model takes headers to be neither integer-like nor [__proto__], and
      where a statement is about the order of fields it is about such
      records.
    - Resource limits of the engine (call stack, memory) are outside the
      model. *)

From Stdlib Require Import String Ascii List ZArith NArith Lia Bool Permutation.
From stdpp Require Import base list strings pretty.
Import ListNotations.

Local Open Scope string_scope.
Local Open Scope list_scope.

(** ** Strings *)

Module JsString.

(** White space removed by [String.prototype.trim], ASCII range. *)
Definition is_space (a : ascii) : bool :=
  let n := N_of_ascii a in
  ((9 <=? n)%N && (n <=? 13)%N) || (n =? 32)%N.

Definition lower_char (a : ascii) : ascii :=
  let n := N_of_ascii a in
  if ((65 <=? n)%N && (n <=? 90)%N) then ascii_of_N (n + 32) else a.

Definition upper_char (a : ascii) : ascii :=
  let n := N_of_ascii a in
  if ((97 <=? n)%N && (n <=? 122)%N) then ascii_of_N (n - 32) else a.

Fixpoint map_chars (f : ascii -> ascii) (s : string) : string :=
  match s with
  | EmptyString => EmptyString
  | String a s' => String (f a) (map_chars f s')
  end.

(** [toLowerCase] and [toUpperCase] on a string of ASCII characters. *)
Definition lower_ascii : string -> string := map_chars lower_char.
Definition upper_ascii : string -> string := map_chars upper_char.

Fixpoint trimStart (s : string) : string :=
  match s with
  | EmptyString => EmptyString
  | String a s' => if is_space a then trimStart s' else s
  end.

Fixpoint trimEnd (s : string) : string :=
  match s with
  | EmptyString => EmptyString
  | String a s' =>
      match trimEnd s' with
      | EmptyString => if is_space a then EmptyString else String a EmptyString
      | t => String a t
      end
  end.

(** [trim] on a string of ASCII characters. *)
Definition trim_ascii (s : string) : string := trimEnd (trimStart s).

(** A string of ASCII characters. *)
Fixpoint is_ascii (s : string) : bool :=
  match s with
  | EmptyString => true
  | String a s' => (N_of_ascii a <? 128)%N && is_ascii s'
  end.

(** A string all of whose characters are white space. *)
Fixpoint all_space (s : string) : bool :=
  match s with
  | EmptyString => true
  | String a s' => is_space a && all_space s'
  end.

(** [s.slice(0, n)]. *)
Fixpoint take (n : nat) (s : string) : string :=
  match n, s with
  | S n', String a s' => String a (take n' s')
  | _, _ => EmptyString
  end.

(** [s] ends with [suffix]: some tail of [s] is [suffix]. *)
Fixpoint ends_with (s suffix : string) : bool :=
  String.eqb s suffix
  || match s with
     | EmptyString => false
     | String _ s' => ends_with s' suffix
     end.

(** A character occurs in a string. *)
Fixpoint has_char (c : ascii) (s : string) : bool :=
  match s with
  | EmptyString => false
  | String a s' => Ascii.eqb a c || has_char c s'
  end.

End JsString.

(** The three string built-ins the program calls, as the engine has them,
    and what is used of them. *)
Class JsStringOps : Type := {
  toLowerCase : string -> string;
  toUpperCase : string -> string;
  trim : string -> string;
  toLowerCase_on_ascii :
    forall s, JsString.is_ascii s = true -> toLowerCase s = JsString.lower_ascii s;
  toUpperCase_on_ascii :
    forall s, JsString.is_ascii s = true -> toUpperCase s = JsString.upper_ascii s;
  trim_on_ascii :
    forall s, JsString.is_ascii s = true -> trim s = JsString.trim_ascii s
}.

(** The ASCII functions themselves are such built-ins; the concrete
    inputs are evaluated with them. *)
Definition AsciiStrings : JsStringOps :=
  {| toLowerCase := JsString.lower_ascii;
     toUpperCase := JsString.upper_ascii;
     trim := JsString.trim_ascii;
     toLowerCase_on_ascii := fun _ _ => eq_refl;
     toUpperCase_on_ascii := fun _ _ => eq_refl;
     trim_on_ascii := fun _ _ => eq_refl |}.

(** ** Insertion-ordered association lists (plain objects and [Map]) *)

Module Alist.

Definition alist (V : Type) : Type := list (string * V).

Section Ops.
Context {V : Type}.

(** [o[k]] on an own property, [m.get(k)]. *)
Fixpoint lookup (o : alist V) (k : string) : option V :=
  match o with
  | [] => None
  | (k', v) :: o' => if String.eqb k' k then Some v else lookup o' k
  end.

(** [m.has(k)]. *)
Definition has (o : alist V) (k : string) : bool :=
  match lookup o k with Some _ => true | None => false end.

(** [o[k] = v], [m.set(k, v)]: an existing key keeps its position, a new
    key goes last. *)
Fixpoint set (o : alist V) (k : string) (v : V) : alist V :=
  match o with
  | [] => [(k, v)]
  | (k', v') :: o' =>
      if String.eqb k' k then (k, v) :: o' else (k', v') :: set o' k v
  end.

(** [Object.keys(o)], [m.keys()]. *)
Definition keys (o : alist V) : list string := map fst o.

(** [m.values()]. *)
Definition values (o : alist V) : list V := map snd o.

End Ops.

End Alist.

(** ** Cell values *)

Class JsNumber (num : Type) : Type := {
  num_truthy : num -> bool;
  num_to_string : num -> string
}.

(** Integer-valued numbers: [0] is the falsy one, [String(n)] is the
    decimal numeral. *)
#[export] Instance Z_JsNumber : JsNumber Z := {
  num_truthy := fun z => negb (Z.eqb z 0);
  num_to_string := fun z => pretty z
}.

(** The last constructor is not a cell value: it is what a read [o[k]]
    gives when [o] does not own [k] and [k] names a member of
    [Object.prototype] (a function, or the prototype itself for
    [__proto__]).  The program tests such a value and never stores it. *)
Inductive value (num : Type) : Type :=
| VUndefined
| VNull
| VBool (b : bool)
| VNum (n : num)
| VStr (s : string)
| VInherited (member : string).

Arguments VUndefined {num}.
Arguments VNull {num}.
Arguments VBool {num} b.
Arguments VNum {num} n.
Arguments VStr {num} s.
Arguments VInherited {num} member.

(** The members a plain object inherits from [Object.prototype]. *)
Definition object_prototype_members : list string :=
  [ "constructor"; "__defineGetter__"; "__defineSetter__"; "hasOwnProperty";
    "__lookupGetter__"; "__lookupSetter__"; "isPrototypeOf";
    "propertyIsEnumerable"; "toString"; "valueOf"; "__proto__";
    "toLocaleString" ].

Definition inherited (k : string) : bool :=
  existsb (String.eqb k) object_prototype_members.

Section Values.
Context {num : Type} {HN : JsNumber num} {HS : JsStringOps}.

(** [ToBoolean(v)], the test behind [!v] and [v || w]. *)
Definition truthy (v : value num) : bool :=
  match v with
  | VUndefined => false
  | VNull => false
  | VBool b => b
  | VNum n => num_truthy n
  | VStr s => negb (String.eqb s "")
  | VInherited _ => true
  end.

(** [String(v)]. *)
Definition to_string (v : value num) : string :=
  match v with
  | VUndefined => "undefined"
  | VNull => "null"
  | VBool true => "true"
  | VBool false => "false"
  | VNum n => num_to_string n
  | VStr s => s
  | VInherited member =>
      if String.eqb member "__proto__" then "[object Object]"
      else if String.eqb member "constructor"
           then "function Object() { [native code] }"
           else "function " ++ member ++ "() { [native code] }"
  end.

(** [v === undefined]. *)
Definition is_undefined (v : value num) : bool :=
  match v with VUndefined => true | _ => false end.

(** [v === ""]. *)
Definition is_empty_string (v : value num) : bool :=
  match v with VStr s => String.eqb s "" | _ => false end.

(** [v || w]. *)
Definition js_or (v w : value num) : value num :=
  if truthy v then v else w.

(** A record: a plain object from header or field name to cell value. *)
Definition obj : Type := Alist.alist (value num).

(** [o[k]]: the own property, else the member inherited from
    [Object.prototype], else [undefined]. *)
Definition obj_get (o : obj) (k : string) : value num :=
  match Alist.lookup o k with
  | Some v => v
  | None => if inherited k then VInherited k else VUndefined
  end.

End Values.

Arguments obj num : clear implicits.

(** ** The program *)

(** The alias table [mapping] of [normalizeData], in declaration order
    (the order [Object.entries] enumerates it in). *)
Definition mapping : list (string * list string) :=
  [ ("MPN", ["Mfr Part Number"; "BOM: Matched MPN"; "Mrf#"; "MPN";
             "Part Number"; "LCSC#"]);
    ("Manufacturer", ["Manufacturer Name"; "BOM: Manufacturer Name"; "Mfr."]);
    ("Description", ["Description"; "BOM: Description"]);
    ("Required Qty", ["Quantity 1"; "BOM: Requested Qty"; "Quantity"]);
    ("Unit Price", ["Unit Price 1 (EUR)"; "BOM: Unit Price($)";
                    "Unit Price(USD)"]);
    ("Total Price", ["Order Unit Price (EUR)"; "BOM: Total Line Price($)";
                     "Ext.Price(USD)"]);
    ("Stock Status", ["Availability"; "BOM: Stock Status"; "Stock Status"]);
    ("Quantity Avail.", ["BOM: Stock Availability"; "Availability"]);
    ("Lead Time", ["Lead Time in Days"; "BOM: Mfg Lead Time (weeks)";
                   "Target Lead Time"]);
    ("Min/Mult (MOQ)", ["Min./Mult."; "Min / Mult"]);
    ("Datasheet", ["Datasheet URL"]);
    ("Product Link", ["Product Link"]) ].

Section Canon.
Context {HS : JsStringOps}.

(** [s.toLowerCase().trim()], applied to the raw header and to every alias. *)
Definition clean (s : string) : string :=
  trim (toLowerCase s).

(** [candidates.some(c => c.toLowerCase().trim() === cleanHeader)]. *)
Definition some_matches (candidates : list string) (cleanHeader : string) : bool :=
  existsb (fun c => String.eqb (clean c) cleanHeader) candidates.

(** The [for ... of Object.entries(mapping)] loop of [getMasterKey], with
    its early [return master] and the final [return rawHeader]. *)
Fixpoint getMasterKey_loop (entries : list (string * list string))
    (cleanHeader rawHeader : string) : string :=
  match entries with
  | [] => rawHeader
  | (master, candidates) :: rest =>
      if some_matches candidates cleanHeader then master
      else getMasterKey_loop rest cleanHeader rawHeader
  end.

(** [getMasterKey] over an arbitrary alias table. *)
Definition getMasterKey_with (table : list (string * list string))
    (rawHeader : string) : string :=
  let cleanHeader := clean rawHeader in
  getMasterKey_loop table cleanHeader rawHeader.

(** [getMasterKey], closed over the shipped [mapping]. *)
Definition getMasterKey (rawHeader : string) : string :=
  getMasterKey_with mapping rawHeader.

End Canon.

(** The statistics object. [merged] is a JavaScript subtraction, so it is
    an integer, not a truncated natural number. *)
Record Stats : Type := {
  merged : Z;
  total : Z;
  original : Z
}.

Section Program.
Context {num : Type} {HN : JsNumber num} {HS : JsStringOps}.

(** The three-field object [normalizeData] returns; [mpnHeader] is [null]
    and [stats] is missing on the early return. *)
Record Result : Type := {
  normalized : list (obj num);
  mpnHeader : option string;
  stats : option Stats
}.

(** The row mapper: the [Object.keys(row).forEach] that fills [mappedRow]. *)
Definition mapRow (row : obj num) : obj num :=
  fold_left
    (fun mappedRow header =>
       Alist.set mappedRow (getMasterKey header) (obj_get row header))
    (Alist.keys row) [].

(** The condition guarding the merge-fill assignment, at field [k]:
    [(existing[k] === undefined || existing[k] === "") &&
     (mappedRow[k] !== undefined && mappedRow[k] !== "")]. *)
Definition fills (existing mappedRow : obj num) (k : string) : bool :=
  (is_undefined (obj_get existing k) || is_empty_string (obj_get existing k))
  && (negb (is_undefined (obj_get mappedRow k))
      && negb (is_empty_string (obj_get mappedRow k))).

(** One iteration of [Object.keys(mappedRow).forEach(k => ...)]. *)
Definition merge_fill_step (mappedRow existing : obj num) (k : string) : obj num :=
  if fills existing mappedRow k
  then Alist.set existing k (obj_get mappedRow k)
  else existing.

(** The merge-fill of [mappedRow] into the resident record [existing]. *)
Definition merge_fill (existing mappedRow : obj num) : obj num :=
  fold_left (merge_fill_step mappedRow) (Alist.keys mappedRow) existing.

(** [String(mpnValue).trim().toUpperCase()]. *)
Definition mpn_key (mpnValue : value num) : string :=
  toUpperCase (trim (to_string mpnValue)).

(** The two accumulators of the loop over [data]. *)
Record State : Type := {
  uniqueMap : Alist.alist (obj num);
  nonMpnRows : list (obj num)
}.

Definition init : State := {| uniqueMap := []; nonMpnRows := [] |}.

(** The body of [data.forEach((row) => ...)]; [uniqueMap.has(key)] and
    [uniqueMap.get(key)] are the one [lookup]. The resident record is
    changed in place, so it keeps its position in the [Map]. *)
Definition process_row (st : State) (row : obj num) : State :=
  let mappedRow := mapRow row in
  let mpnValue := obj_get mappedRow "MPN" in
  if negb (truthy mpnValue) then
    {| uniqueMap := uniqueMap st; nonMpnRows := nonMpnRows st ++ [mappedRow] |}
  else
    let key := mpn_key mpnValue in
    match Alist.lookup (uniqueMap st) key with
    | None =>
        {| uniqueMap := Alist.set (uniqueMap st) key mappedRow;
           nonMpnRows := nonMpnRows st |}
    | Some existing =>
        {| uniqueMap := Alist.set (uniqueMap st) key (merge_fill existing mappedRow);
           nonMpnRows := nonMpnRows st |}
    end.

Definition process_rows (st : State) (data : list (obj num)) : State :=
  fold_left process_row data st.

(** [normalizeData]. The constants [firstRowHeaders] and [actualMpnHeader]
    are computed by the program and never read; they are left out. *)
Definition normalizeData (data : list (obj num)) : Result :=
  match data with
  | [] => {| normalized := []; mpnHeader := None; stats := None |}
  | _ =>
      let st := process_rows init data in
      let normalized := Alist.values (uniqueMap st) ++ nonMpnRows st in
      {| normalized := normalized;
         mpnHeader := Some "MPN";
         stats := Some {| merged := Z.of_nat (length data) - Z.of_nat (length normalized);
                          total := Z.of_nat (length normalized);
                          original := Z.of_nat (length data) |} |}
  end.

(** [importantMap] of [generateCondensedData]: canonical field and display
    name, in declaration order. *)
Definition importantMap : list (string * string) :=
  [ ("Manufacturer", "Manufacturer");
    ("MPN", "MPN");
    ("Min/Mult (MOQ)", "Min / Mult (MOQ)");
    ("Unit Price", "Unit Price");
    ("Stock Status", "Stock Status");
    ("Quantity Avail.", "Quantity Avail.");
    ("Description", "Description");
    ("Datasheet", "Datasheet");
    ("Product Link", "Product Link") ].

(** The callback of [data.map] in [generateCondensedData]. *)
Definition condense_row (row : obj num) : obj num :=
  fold_left
    (fun newRow '(masterKey, displayName) =>
       Alist.set newRow displayName (js_or (obj_get row masterKey) (VStr "")))
    importantMap [].

Definition generateCondensedData (data : list (obj num)) : list (obj num) :=
  map condense_row data.

(** The identity of a mapped record as the loop decides it: none when the
    [MPN] value is falsy, otherwise the trimmed, upper-cased string. *)
Definition identityKey (mappedRow : obj num) : option string :=
  let mpnValue := obj_get mappedRow "MPN" in
  if truthy mpnValue then Some (mpn_key mpnValue) else None.

Definition has_identity (mappedRow : obj num) : bool :=
  truthy (obj_get mappedRow "MPN").

End Program.

Arguments Result num : clear implicits.
Arguments State num : clear implicits.

(** Keys in order of first occurrence, each kept once. *)
Fixpoint first_occurrences (l : list string) : list string :=
  match l with
  | [] => []
  | x :: l' => x :: filter (fun y => y <> x) (first_occurrences l')
  end.


Section Groups.
Context {num : Type} {HN : JsNumber num} {HS : JsStringOps}.

(** The identity keys of the records that have one, in input order. *)
Definition keyed_keys (data : list (obj num)) : list string :=
  omap (fun row => identityKey (mapRow row)) data.

(** The mapped records without identity, in input order. *)
Definition no_identity_rows (data : list (obj num)) : list (obj num) :=
  filter (fun r => has_identity r = false) (map mapRow data).

(** The identity of a record in the words of the specification: none for
    an absent or empty [MPN] (and for any other falsy one, which the
    falsy-[MPN] case sets aside too); otherwise the value trimmed and
    upper-cased, and none again when that is the empty key, as it is for a
    white-space-only [MPN]. *)
Definition spec_identityKey (m : obj num) : option string :=
  let mpnValue := obj_get m "MPN" in
  if truthy mpnValue then
    let key := toUpperCase (trim (to_string mpnValue)) in
    if String.eqb key "" then None else Some key
  else None.

(** The specification's identity keys of the records that have one, in
    input order, and its records without identity. *)
Definition spec_keyed_keys (data : list (obj num)) : list string :=
  omap (fun row => spec_identityKey (mapRow row)) data.

Definition spec_no_identity_rows (data : list (obj num)) : list (obj num) :=
  filter (fun r => spec_identityKey r = None) (map mapRow data).


(** The loop of [mapRow], over the entries of the row instead of its
    keys, from a given partial result. *)
Definition mapRow_entries (entries mappedRow : obj num) : obj num :=
  fold_left (fun m '(h, v) => Alist.set m (getMasterKey h) v) entries mappedRow.

(** Every resident record has the identity it is registered under. *)
Definition residents_keyed (um : Alist.alist (obj num)) : Prop :=
  Forall (fun e => identityKey (snd e) = Some (fst e)) um.

End Groups.

(** ** Sample records *)

Module Samples.

#[local] Existing Instance AsciiStrings.

(** The two records of the merge scenario: same part, complementary
    blanks. *)
Definition acme_x1 : obj Z :=
  [("MPN", VStr "X1"); ("Manufacturer", VStr "Acme"); ("Price", VStr "")].

Definition priced_x1 : obj Z :=
  [("MPN", VStr "x1"); ("Manufacturer", VStr ""); ("Price", VStr "1.00")].

(** Two unrelated rows whose part number cell holds only spaces. *)
Definition blank_mpn_resistor : obj Z :=
  [("MPN", VStr " "); ("Description", VStr "resistor")].

Definition blank_mpn_acme : obj Z :=
  [("MPN", VStr "  "); ("Manufacturer", VStr "Acme")].

(** The same part twice, as two vendors spell it; the second row has a
    column named like a member of [Object.prototype]. *)
Definition bare_x1 : obj Z := [("Part Number", VStr "X1")].

Definition x1_with_constructor : obj Z :=
  [("MPN", VStr " x1"); ("constructor", VStr "Acme")].

(** Two vendor rows: a part number of one space, and part X1. *)
Definition blank_part_number : obj Z :=
  [("Part Number", VStr " "); ("Description", VStr "resistor")].

Definition vendor_x1 : obj Z :=
  [("Mfr Part Number", VStr " x1 "); ("Mfr.", VStr "Acme")].

(** A row whose part number cell is the number zero. *)
Definition zero_mpn : obj Z :=
  [("MPN", VNum 0%Z); ("Description", VStr "capacitor")].

(** A part that is out of stock: the available quantity is the number
    zero. *)
Definition out_of_stock : obj Z :=
  [("MPN", VStr "X1"); ("Quantity Avail.", VNum 0%Z)].

(** A raw row with two headers that are both aliases of [MPN]. *)
Definition two_part_numbers : obj Z :=
  [("Mfr Part Number", VStr "A"); ("Part Number", VStr "B");
   ("Quantity", VNum 3%Z)].

(** A test alias table in which one spelling belongs to two fields. *)
Definition stock_first : list (string * list string) :=
  [("Stock", ["Availability"]); ("Qty", [" availability"])].

End Samples.

(** ** Further notions used in the statements *)

Section Notions.
Context {num : Type} {HN : JsNumber num} {HS : JsStringOps}.

(** [v === undefined || v === ""]: the cell counts as a blank for
    merge-fill. *)
Definition blank (v : value num) : bool :=
  is_undefined v || is_empty_string v.

(** A record whose keys are unique and are left as they are by
    [getMasterKey]. *)
Definition canonical_obj (o : obj num) : Prop :=
  NoDup (Alist.keys o) /\ Forall (fun k => getMasterKey k = k) (Alist.keys o).

(** One entry of a raw row with its header replaced by the master key. *)
Definition rename_entry (e : string * value num) : string * value num :=
  (getMasterKey (fst e), snd e).

(** The [Map] holds a resident under [key] that is non-blank at every
    field of the mapped row [m] that is non-blank. *)
Definition covers (um : Alist.alist (obj num)) (key : string) (m : obj num) : Prop :=
  exists e, Alist.lookup um key = Some e
            /\ forall k, k ∈ Alist.keys m ->
                         blank (obj_get m k) = false -> blank (obj_get e k) = false.

(** A raw row whose headers are ASCII strings and whose part number, as
    the row mapper with the ASCII built-ins gives it, is an ASCII string
    once converted by [String]. *)
Definition ascii_row (row : obj num) : bool :=
  forallb JsString.is_ascii (Alist.keys row)
  && JsString.is_ascii
       (to_string (obj_get (mapRow (HS := AsciiStrings) row) "MPN")).

(** A cell as the condensed export may hold it: truthy, or the empty
    string. *)
Definition display_cell (v : value num) : Prop :=
  truthy v = true \/ v = VStr "".

End Notions.

(** The display columns of the condensed export, in order. *)
Definition display_columns : list string :=
  [ "Manufacturer"; "MPN"; "Min / Mult (MOQ)"; "Unit Price"; "Stock Status";
    "Quantity Avail."; "Description"; "Datasheet"; "Product Link" ].

(** ** The page: file list, buttons, status line and exports

    The rest of [main.js] is the page around the engine.  Its state is the
    three globals and the DOM properties the handlers write; a download
    handed to the browser is recorded in [downloads].  What the page gets
    from outside is a parameter: what reading a file yields ([readFile]
    resolves with rows and first-row headers, or rejects with a message)
    and the clock ([new Date().toISOString()]), and whether the SheetJS
    calls of [exportFile] throw.  The DOM calls are taken to return
    normally.

    The two button handlers are [async]: each stops at its
    [await readFile(file)], and until the read settles the user can drop
    files or click a button that is enabled, and another read can settle.
    [processFiles] and [exportAllHeaders] below are the handlers run from
    start to end with nothing in between; [step] is the page event by
    event, with the handlers that wait kept as [Task]s.  [detectedHeaders]
    is written and never read, and the rendering of the file list by
    [updateFileList] (names and sizes in KB) is display only; both are left
    out. *)

Module App.

(** The SheetJS calls of [exportFile] ([json_to_sheet], [XLSX.write]) run
    before the download is made and can throw; [XLSX.write] refuses, for
    one, a text cell that is too long.  Whether they throw for given rows,
    and with which message, is a parameter. *)
Class XlsxWriter (num : Type) : Type := {
  write_error : list (obj num) -> option string
}.

Section Model.
Context {num : Type} {HN : JsNumber num} {HS : JsStringOps}
  {HW : XlsxWriter num}.

(** What [readFile] resolves with. *)
Record Sheet : Type := {
  data : list (obj num);
  headers : list string
}.

(** A [File] as the page uses it: its name, and what reading it gives
    ([inl] the message of the rejection). *)
Record File : Type := {
  name : string;
  readFile : string + Sheet
}.

Inductive Download : Type :=
| Workbook (filename : string) (rows : list (obj num))
| TextFile (filename : string) (text : string).

Record Page : Type := {
  files : list File;
  isProcessing : bool;
  statusText : string;
  statusColor : string;
  processBtn_disabled : bool;
  condensedBtn_disabled : bool;
  headersBtn_disabled : bool;
  downloads : list Download
}.

(** [file.name.match(/\.(xlsx|xls|csv)$/i)]. *)
Definition valid_name (n : string) : bool :=
  let l := JsString.lower_ascii n in
  JsString.ends_with l ".xlsx" || JsString.ends_with l ".xls"
  || JsString.ends_with l ".csv".

(** [updateStatus(msg, color)]. *)
Definition updateStatus (msg color : string) (p : Page) : Page :=
  {| files := files p; isProcessing := isProcessing p;
     statusText := msg; statusColor := color;
     processBtn_disabled := processBtn_disabled p;
     condensedBtn_disabled := condensedBtn_disabled p;
     headersBtn_disabled := headersBtn_disabled p;
     downloads := downloads p |}.

(** The three assignments at the end of [updateFileList]. *)
Definition updateFileList (p : Page) : Page :=
  let none := Nat.eqb (length (files p)) 0 in
  {| files := files p; isProcessing := isProcessing p;
     statusText := statusText p; statusColor := statusColor p;
     processBtn_disabled := none;
     condensedBtn_disabled := none;
     headersBtn_disabled := none;
     downloads := downloads p |}.

Definition set_files (fs : list File) (p : Page) : Page :=
  {| files := fs; isProcessing := isProcessing p;
     statusText := statusText p; statusColor := statusColor p;
     processBtn_disabled := processBtn_disabled p;
     condensedBtn_disabled := condensedBtn_disabled p;
     headersBtn_disabled := headersBtn_disabled p;
     downloads := downloads p |}.

Definition handleFiles (newFiles : list File) (p : Page) : Page :=
  if isProcessing p then p
  else
    let validFiles := List.filter (fun file => valid_name (name file)) newFiles in
    if Nat.eqb (length validFiles) 0 then
      updateStatus "Please upload a valid Excel or CSV file." "#ef4444" p
    else
      updateStatus "Ready" "var(--text-muted)"
        (updateFileList (set_files (files p ++ validFiles) p)).

(** [iso.replace(/[:.]/g, '-').slice(0, 19)]. *)
Definition timestamp (iso : string) : string :=
  JsString.take 19
    (JsString.map_chars
       (fun a => if Ascii.eqb a ":" || Ascii.eqb a "." then "-"%char else a)
       iso).

Definition add_download (d : Download) (p : Page) : Page :=
  {| files := files p; isProcessing := isProcessing p;
     statusText := statusText p; statusColor := statusColor p;
     processBtn_disabled := processBtn_disabled p;
     condensedBtn_disabled := condensedBtn_disabled p;
     headersBtn_disabled := headersBtn_disabled p;
     downloads := downloads p ++ [d] |}.

(** [exportFile(data, prefix)], at clock reading [now]: [inl] the message
    of what the writer throws, before any download is made. *)
Definition exportFile (now : string) (rows : list (obj num)) (prefix : string)
    (p : Page) : string + Page :=
  match write_error rows with
  | Some message => inl message
  | None =>
      inr (add_download
             (Workbook (prefix ++ "_" ++ timestamp now ++ ".xlsx") rows) p)
  end.

(** The loop [for (const file of files)] of [processFiles]: the rows of
    all files, in file order, or the first rejection. *)
Fixpoint read_all_data (fs : list File) (allData : list (obj num))
    : string + list (obj num) :=
  match fs with
  | [] => inr allData
  | file :: fs' =>
      match readFile file with
      | inl message => inl message
      | inr sheet => read_all_data fs' (allData ++ data sheet)
      end
  end.

(** The same loop in [exportAllHeaders], collecting the headers. *)
Fixpoint read_all_headers (fs : list File) (allHeaders : list string)
    : string + list string :=
  match fs with
  | [] => inr allHeaders
  | file :: fs' =>
      match readFile file with
      | inl message => inl message
      | inr sheet => read_all_headers fs' (allHeaders ++ headers sheet)
      end
  end.

(** The assignments before the [try] of [processFiles]. *)
Definition begin_processing (msg : string) (p : Page) : Page :=
  {| files := files p; isProcessing := true;
     statusText := msg; statusColor := "var(--primary)";
     processBtn_disabled := true;
     condensedBtn_disabled := true;
     headersBtn_disabled := true;
     downloads := downloads p |}.

(** The [finally] of [processFiles]. *)
Definition end_processing (p : Page) : Page :=
  {| files := files p; isProcessing := false;
     statusText := statusText p; statusColor := statusColor p;
     processBtn_disabled := false;
     condensedBtn_disabled := false;
     headersBtn_disabled := false;
     downloads := downloads p |}.

(** The message of the [TypeError] that reading [stats.total] of a
    missing [stats] would throw (the wording is the engine's). *)
Definition stats_type_error : string :=
  "Cannot read properties of undefined (reading 'total')".

(** [`${mpnHeader}`]. *)
Definition show_mpnHeader (h : option string) : string :=
  match h with Some s => s | None => "null" end.

(** The [catch] of [processFiles]. *)
Definition catch_processing (message : string) (p : Page) : Page :=
  updateStatus ("Error: " ++ message) "#ef4444" p.

(** The [try] of [processFiles] after its loop, with the [catch]. *)
Definition after_reading (now : string) (condensed : bool)
    (allData : list (obj num)) (p0 : Page) : Page :=
  let r := normalizeData allData in
  if Nat.eqb (length (normalized r)) 0 then
    catch_processing "No data found to process." p0
  else if condensed then
    let condensedData := generateCondensedData (normalized r) in
    match exportFile now condensedData "condensed_list" p0 with
    | inl message => catch_processing message p0
    | inr p1 =>
        updateStatus
          ("Success! Exported " ++ pretty (length condensedData)
           ++ " items with important columns only.") "#22c55e" p1
    end
  else
    match exportFile now (normalized r) "master_list" p0 with
    | inl message => catch_processing message p0
    | inr p1 =>
        match stats r with
        | Some s =>
            updateStatus
              ("Done! Key: " ++ String "034" (show_mpnHeader (mpnHeader r))
               ++ String "034" ". Saved " ++ pretty (total s)
               ++ " items (Merged " ++ pretty (merged s) ++ ").") "#22c55e" p1
        | None => catch_processing stats_type_error p1
        end
    end.

(** [processFiles(condensed)] with nothing in between, the export at clock
    reading [now]. *)
Definition processFiles (now : string) (condensed : bool) (p : Page) : Page :=
  match files p with
  | [] => p
  | _ :: _ =>
      let p0 :=
        begin_processing
          (if condensed then "Generating Condensed List..."
           else "Processing All Data...") p in
      end_processing
        match read_all_data (files p0) [] with
        | inl message => catch_processing message p0
        | inr allData => after_reading now condensed allData p0
        end
  end.

(** The assignments before the [try] of [exportAllHeaders]. *)
Definition begin_headers (p : Page) : Page :=
  {| files := files p; isProcessing := true;
     statusText := "Extracting headers..."; statusColor := "var(--primary)";
     processBtn_disabled := processBtn_disabled p;
     condensedBtn_disabled := condensedBtn_disabled p;
     headersBtn_disabled := true;
     downloads := downloads p |}.

(** The [finally] of [exportAllHeaders]. *)
Definition end_headers (p : Page) : Page :=
  {| files := files p; isProcessing := false;
     statusText := statusText p; statusColor := statusColor p;
     processBtn_disabled := processBtn_disabled p;
     condensedBtn_disabled := condensedBtn_disabled p;
     headersBtn_disabled := false;
     downloads := downloads p |}.

(** The [catch] of [exportAllHeaders]. *)
Definition catch_headers (message : string) (p : Page) : Page :=
  updateStatus ("Header Error: " ++ message) "#ef4444" p.

(** The [try] of [exportAllHeaders] after its loop, with the [catch]. *)
Definition after_headers (now : string) (allHeaders : list string) (p0 : Page)
    : Page :=
  if Nat.eqb (length allHeaders) 0 then
    catch_headers "No headers found in selected files." p0
  else
    let headerList := String.concat (String "010" "") allHeaders in
    updateStatus
      ("Exported " ++ pretty (length allHeaders) ++ " total headers to TXT.")
      "#22c55e"
      (add_download
         (TextFile ("exported_headers_" ++ timestamp now ++ ".txt") headerList)
         p0).

(** [exportAllHeaders()] with nothing in between. *)
Definition exportAllHeaders (now : string) (p : Page) : Page :=
  match files p with
  | [] => p
  | _ :: _ =>
      let p0 := begin_headers p in
      end_headers
        match read_all_headers (files p0) [] with
        | inl message => catch_headers message p0
        | inr allHeaders => after_headers now allHeaders p0
        end
  end.

(** A handler that waits at its [await readFile(file)]: the file being
    read, the files the loop has still to visit, and what it has collected.
    The loop walks the array that [files] named when the loop began;
    [handleFiles] binds [files] to a new array and never changes the old
    one. *)
Inductive Task : Type :=
| Processing (condensed : bool) (file : File) (rest : list File)
    (allData : list (obj num))
| Extracting (file : File) (rest : list File) (allHeaders : list string).

Definition is_processing (t : Task) : bool :=
  match t with
  | Processing _ _ _ _ => true
  | Extracting _ _ _ => false
  end.

(** The page and the handlers that wait, oldest first. *)
Record World : Type := {
  page : Page;
  tasks : list Task
}.

(** [processFiles(condensed)] up to its first [await]. *)
Definition start_processing (condensed : bool) (w : World) : World :=
  match files (page w) with
  | [] => w
  | file :: rest =>
      {| page :=
           begin_processing
             (if condensed then "Generating Condensed List..."
              else "Processing All Data...") (page w);
         tasks := tasks w ++ [Processing condensed file rest []] |}
  end.

(** [exportAllHeaders()] up to its first [await]. *)
Definition start_headers (w : World) : World :=
  match files (page w) with
  | [] => w
  | file :: rest =>
      {| page := begin_headers (page w);
         tasks := tasks w ++ [Extracting file rest []] |}
  end.

(** A handler from the point where its read settles to its next [await]
    or to its end, on the page as it is by then; the clock reads [now]. *)
Definition resume (now : string) (t : Task) (p : Page) : Page * option Task :=
  match t with
  | Processing condensed file rest allData =>
      match readFile file with
      | inl message => (end_processing (catch_processing message p), None)
      | inr sheet =>
          let allData' := allData ++ data sheet in
          match rest with
          | [] => (end_processing (after_reading now condensed allData' p), None)
          | next :: rest' => (p, Some (Processing condensed next rest' allData'))
          end
      end
  | Extracting file rest allHeaders =>
      match readFile file with
      | inl message => (end_headers (catch_headers message p), None)
      | inr sheet =>
          let allHeaders' := allHeaders ++ headers sheet in
          match rest with
          | [] => (end_headers (after_headers now allHeaders' p), None)
          | next :: rest' => (p, Some (Extracting next rest' allHeaders'))
          end
      end
  end.

(** What happens to the page: the user drops or picks files, or clicks one
    of the three buttons (a disabled button does not deliver its click),
    or the read that the [i]-th waiting handler awaits settles, at a clock
    reading. *)
Inductive event : Type :=
| DropFiles (newFiles : list File)
| ClickProcess
| ClickCondensed
| ClickHeaders
| ReadSettles (i : nat) (now : string).

Definition step (w : World) (ev : event) : World :=
  match ev with
  | DropFiles newFiles =>
      {| page := handleFiles newFiles (page w); tasks := tasks w |}
  | ClickProcess =>
      if processBtn_disabled (page w) then w else start_processing false w
  | ClickCondensed =>
      if condensedBtn_disabled (page w) then w else start_processing true w
  | ClickHeaders =>
      if headersBtn_disabled (page w) then w else start_headers w
  | ReadSettles i now =>
      match tasks w !! i with
      | None => w
      | Some t =>
          match resume now t (page w) with
          | (p', Some t') => {| page := p'; tasks := <[i := t']> (tasks w) |}
          | (p', None) => {| page := p'; tasks := delete i (tasks w) |}
          end
      end
  end.

Definition run (w : World) (evs : list event) : World := fold_left step evs w.

(** The page with no handler waiting. *)
Definition at_rest (p : Page) : World := {| page := p; tasks := [] |}.

(** A workbook download has at least one row. *)
Definition nonempty_download (d : Download) : Prop :=
  match d with
  | Workbook _ rows => rows <> []
  | TextFile _ _ => True
  end.

(** No handler is running, and with files in the list the three buttons
    are enabled. *)
Definition idle (p : Page) : Prop :=
  isProcessing p = false
  /\ (files p <> [] ->
      processBtn_disabled p = false
      /\ condensedBtn_disabled p = false
      /\ headersBtn_disabled p = false).

(** The buttons as the waiting handlers account for them: while no
    [processFiles] waits, the two processing buttons are enabled if there
    are files; while no handler waits at all, none is marked as running and
    the headers button is enabled if there are files. *)
Definition accounted (w : World) : Prop :=
  (existsb is_processing (tasks w) = false ->
   files (page w) <> [] ->
   processBtn_disabled (page w) = false
   /\ condensedBtn_disabled (page w) = false)
  /\ (tasks w = [] ->
      isProcessing (page w) = false
      /\ (files (page w) <> [] -> headersBtn_disabled (page w) = false)).

(** What the handlers leave behind: the file list as it was, no handler
    running, a status line, the buttons enabled as given, and the downloads
    so far. *)
Definition settled (p : Page) (msg color : string) (processOff condensedOff : bool)
    (ds : list Download) : Page :=
  {| files := files p; isProcessing := false;
     statusText := msg; statusColor := color;
     processBtn_disabled := processOff;
     condensedBtn_disabled := condensedOff;
     headersBtn_disabled := false;
     downloads := downloads p ++ ds |}.

End Model.

Arguments Sheet num : clear implicits.
Arguments File num : clear implicits.
Arguments Download num : clear implicits.
Arguments Page num : clear implicits.
Arguments Task num : clear implicits.
Arguments World num : clear implicits.
Arguments event num : clear implicits.

End App.

(** ** Sample pages *)

Module PageSamples.
Import App Samples.

#[local] Existing Instance AsciiStrings.

(** A writer that refuses a text cell over 32767 characters. *)
Definition long_text (v : value Z) : bool :=
  match v with
  | VStr s => (32767 <? N.of_nat (String.length s))%N
  | _ => false
  end.

Definition text_limit : XlsxWriter Z :=
  {| write_error rows :=
       if existsb (fun row => existsb (fun e => long_text (snd e)) row) rows
       then Some "Text length must not exceed 32767 characters"
       else None |}.

#[local] Existing Instance text_limit.

Definition vendor_a : Sheet Z :=
  {| data := [acme_x1; zero_mpn]; headers := ["MPN"; "Manufacturer"; "Price"] |}.

Definition vendor_b : Sheet Z :=
  {| data := [priced_x1]; headers := ["MPN"; "Manufacturer"; "Price"] |}.

Definition file_a : File Z := {| name := "vendor_a.XLSX"; readFile := inr vendor_a |}.
Definition file_b : File Z := {| name := "vendor_b.csv"; readFile := inr vendor_b |}.
Definition file_broken : File Z :=
  {| name := "broken.xls"; readFile := inl "File is password-protected" |}.
Definition file_notes : File Z := {| name := "notes.txt"; readFile := inl "unread" |}.

(** The page before anything is added: the buttons are disabled. *)
Definition fresh : Page Z :=
  {| files := []; isProcessing := false;
     statusText := "Ready"; statusColor := "var(--text-muted)";
     processBtn_disabled := true; condensedBtn_disabled := true;
     headersBtn_disabled := true; downloads := [] |}.

Definition two_files : Page Z := handleFiles [file_a; file_notes; file_b] fresh.

Definition with_broken : Page Z := handleFiles [file_a; file_broken; file_b] fresh.

Definition noon : string := "2024-01-02T12:00:00.000Z".

(** A sheet with a note of 32768 characters. *)
Definition long_note : string := N.iter 32768 (String "x") "".

Definition file_long : File Z :=
  {| name := "long.csv";
     readFile :=
       inr {| data := [[("MPN", VStr "X9"); ("Notes", VStr long_note)]];
              headers := ["MPN"; "Notes"] |} |}.

(** A session in which handlers wait while the user goes on: the headers
    handler and a condensed run wait together; a drop is refused while the
    flag is set and accepted once the headers handler has ended, the
    condensed run still waiting; a master run is then started beside it. *)
Definition a_session : list (event Z) :=
  [ DropFiles [file_notes]; ClickProcess;
    DropFiles [file_a];
    ClickHeaders; ClickCondensed;
    DropFiles [file_b];
    ReadSettles 0 noon;
    DropFiles [file_broken; file_b];
    ClickProcess;
    ReadSettles 0 noon;
    ReadSettles 0 noon; ReadSettles 0 noon ].

(** A later row of part X1 with another price. *)
Definition repriced_x1 : obj Z :=
  [("MPN", VStr "X1"); ("Price", VStr "2.00")].

(** A raw row as a vendor file has it. *)
Definition vendor_row : obj Z :=
  [("Mfr Part Number", VStr "X1"); ("Mfr.", VStr "Acme"); ("Notes", VStr "")].

End PageSamples.

(** ** Association lists: lookup after update *)

Module AlistFacts.
Import Alist.

Section Facts.
Context {V : Type}.
Implicit Types (o : alist V) (k : string) (v : V).

Lemma lookup_set_eq o k v : lookup (set o k v) k = Some v.
Proof.
  induction o as [|[k' v'] o IH]; simpl.
  - by rewrite String.eqb_refl.
  - destruct (String.eqb k' k) eqn:E; simpl.
    + by rewrite String.eqb_refl.
    + by rewrite E.
Qed.

Lemma lookup_set_ne o k k' v : k <> k' -> lookup (set o k v) k' = lookup o k'.
Proof.
  intros Hne. induction o as [|[k0 v0] o IH]; simpl.
  - destruct (String.eqb_spec k k'); [done|done].
  - destruct (String.eqb_spec k0 k) as [->|Hk]; simpl.
    + destruct (String.eqb_spec k k'); [done|done].
    + by rewrite IH.
Qed.

Lemma lookup_None o k : lookup o k = None <-> k ∉ keys o.
Proof.
  induction o as [|[k' v'] o IH]; simpl.
  - split; [intros _; apply not_elem_of_nil | done].
  - rewrite not_elem_of_cons. destruct (String.eqb_spec k' k) as [->|Hk].
    + split; [done | intros [? _]; done].
    + rewrite IH. split; [intros ?; split; congruence | intros [_ ?]; done].
Qed.

Lemma lookup_Some_elem o k v : lookup o k = Some v -> (k, v) ∈ o.
Proof.
  induction o as [|[k' v'] o IH]; simpl; [done|].
  destruct (String.eqb_spec k' k) as [->|Hk].
  - intros [= ->]. apply list_elem_of_here.
  - intros Hl. apply list_elem_of_further. by apply IH.
Qed.

Lemma lookup_NoDup o k v : NoDup (keys o) -> (k, v) ∈ o -> lookup o k = Some v.
Proof.
  induction o as [|[k' v'] o IH]; simpl.
  - intros _ Hin. by apply elem_of_nil in Hin.
  - intros Hnd Hin. apply NoDup_cons in Hnd as [Hk' Hnd].
    apply elem_of_cons in Hin as [[= <- <-]|Hin].
    + by rewrite String.eqb_refl.
    + destruct (String.eqb_spec k' k) as [->|Hk]; [|by apply IH].
      exfalso. apply Hk'. unfold keys.
      change k with (fst (k, v)). by apply list_elem_of_fmap_2.
Qed.

(** A new key goes last. *)
Lemma set_new o k v : lookup o k = None -> set o k v = o ++ [(k, v)].
Proof.
  induction o as [|[k' v'] o IH]; simpl; [done|].
  destruct (String.eqb k' k); [done|]. intros Hl. by rewrite IH.
Qed.

Lemma keys_snoc o k v : keys (o ++ [(k, v)]) = keys o ++ [k].
Proof. unfold keys. by rewrite map_app. Qed.

(** An existing key keeps its position. *)
Lemma keys_set_old o k v v' : lookup o k = Some v' -> keys (set o k v) = keys o.
Proof.
  induction o as [|[k0 v0] o IH]; simpl; [done|].
  destruct (String.eqb_spec k0 k) as [->|Hk]; simpl; [done|].
  intros Hl. by rewrite IH.
Qed.

(** Updates keep the keys of an object unique. *)
Lemma NoDup_keys_set o k v : NoDup (keys o) -> NoDup (keys (set o k v)).
Proof.
  intros Hnd. destruct (lookup o k) as [v'|] eqn:Hl.
  - by rewrite (keys_set_old _ _ _ _ Hl).
  - rewrite (set_new _ _ _ Hl), keys_snoc. apply NoDup_app.
    split; [done|]. split; [|apply NoDup_singleton].
    intros x Hx ->%list_elem_of_singleton. by apply lookup_None in Hl.
Qed.

Lemma length_set_old o k v v' : lookup o k = Some v' -> length (set o k v) = length o.
Proof.
  intros Hl. apply (keys_set_old _ _ v) in Hl.
  apply (f_equal (@length _)) in Hl. unfold keys in Hl.
  by rewrite !length_map in Hl.
Qed.

Lemma Forall_set (P : string * V -> Prop) o k v :
  Forall P o -> P (k, v) -> Forall P (set o k v).
Proof.
  intros Ho Hkv. induction Ho as [|[k0 v0] o Hx Ho IH]; simpl.
  - by constructor.
  - destruct (String.eqb k0 k); by constructor.
Qed.

End Facts.
End AlistFacts.

(** ** The string built-ins on ASCII strings *)

Section AsciiStringFacts.
Import JsString.

Lemma lower_char_ascii a :
  (N_of_ascii a <? 128)%N = true -> (N_of_ascii (lower_char a) <? 128)%N = true.
Proof. destruct a as [[] [] [] [] [] [] [] []]; vm_compute; congruence. Qed.

Lemma upper_char_ascii a :
  (N_of_ascii a <? 128)%N = true -> (N_of_ascii (upper_char a) <? 128)%N = true.
Proof. destruct a as [[] [] [] [] [] [] [] []]; vm_compute; congruence. Qed.

Lemma is_ascii_map_chars f s :
  (forall a, (N_of_ascii a <? 128)%N = true ->
             (N_of_ascii (f a) <? 128)%N = true) ->
  is_ascii s = true -> is_ascii (map_chars f s) = true.
Proof.
  intros Hf. induction s as [|a s IH]; simpl; [done|].
  intros [Ha Hs]%andb_true_iff. by rewrite (Hf a Ha), IH.
Qed.

Lemma is_ascii_trimStart s : is_ascii s = true -> is_ascii (trimStart s) = true.
Proof.
  induction s as [|a s IH]; [done|]. intros Hs.
  cbn [trimStart]. destruct (is_space a); [|done].
  cbn [is_ascii] in Hs. apply andb_true_iff in Hs as [_ Hs]. by apply IH.
Qed.

Lemma is_ascii_trimEnd s : is_ascii s = true -> is_ascii (trimEnd s) = true.
Proof.
  induction s as [|a s IH]; [done|]. intros Hs.
  cbn [is_ascii] in Hs. apply andb_true_iff in Hs as [Ha Hs].
  specialize (IH Hs). cbn [trimEnd].
  destruct (trimEnd s) as [|b t].
  - destruct (is_space a); [done|]. cbn [is_ascii]. by rewrite Ha.
  - cbn [is_ascii] in *. by rewrite Ha.
Qed.

Lemma is_ascii_lower s : is_ascii s = true -> is_ascii (lower_ascii s) = true.
Proof. apply is_ascii_map_chars, lower_char_ascii. Qed.

Lemma is_ascii_upper s : is_ascii s = true -> is_ascii (upper_ascii s) = true.
Proof. apply is_ascii_map_chars, upper_char_ascii. Qed.

Lemma is_ascii_trim s : is_ascii s = true -> is_ascii (trim_ascii s) = true.
Proof. intros Hs. by apply is_ascii_trimEnd, is_ascii_trimStart. Qed.

End AsciiStringFacts.

Section CanonicalizerOnAscii.
Context {HS : JsStringOps}.
Import JsString.

(** On ASCII headers the canonicalizer is the canonicalizer with the
    ASCII built-ins, which computes. *)
Lemma clean_on_ascii s :
  is_ascii s = true -> clean s = @clean AsciiStrings s.
Proof.
  intros Hs. unfold clean.
  rewrite (toLowerCase_on_ascii s Hs).
  by rewrite (trim_on_ascii _ (is_ascii_lower s Hs)).
Qed.

Lemma some_matches_on_ascii candidates c :
  forallb is_ascii candidates = true ->
  some_matches candidates c = @some_matches AsciiStrings candidates c.
Proof.
  unfold some_matches. induction candidates as [|x xs IH]; simpl; [done|].
  intros [Hx Hxs]%andb_true_iff. by rewrite (clean_on_ascii x Hx), IH.
Qed.

Lemma getMasterKey_loop_on_ascii table c raw :
  forallb (fun e => forallb is_ascii (snd e)) table = true ->
  getMasterKey_loop table c raw = @getMasterKey_loop AsciiStrings table c raw.
Proof.
  induction table as [|[m cs] table IH]; simpl; [done|].
  intros [Hcs Htab]%andb_true_iff.
  by rewrite (some_matches_on_ascii cs c Hcs), IH.
Qed.

Lemma getMasterKey_with_on_ascii table h :
  forallb (fun e => forallb is_ascii (snd e)) table = true ->
  is_ascii h = true ->
  getMasterKey_with table h = @getMasterKey_with AsciiStrings table h.
Proof.
  intros Htab Hh. unfold getMasterKey_with.
  by rewrite (clean_on_ascii h Hh), (getMasterKey_loop_on_ascii _ _ _ Htab).
Qed.

Lemma getMasterKey_on_ascii h :
  is_ascii h = true -> getMasterKey h = @getMasterKey AsciiStrings h.
Proof. intros Hh. by apply getMasterKey_with_on_ascii. Qed.

End CanonicalizerOnAscii.

(** ** Header canonicalizer *)

Section Canonicalizer.
Context {HS : JsStringOps}.
Implicit Types (table : list (string * list string)) (h : string).

Lemma some_matches_true candidates h :
  some_matches candidates (clean h) = true <->
  exists c, c ∈ candidates /\ clean c = clean h.
Proof.
  unfold some_matches. rewrite existsb_exists. split.
  - intros (c & Hin & Heq). exists c. split.
    + by apply list_elem_of_In.
    + by apply String.eqb_eq.
  - intros (c & Hin & Heq). exists c. split.
    + by apply list_elem_of_In.
    + by apply String.eqb_eq.
Qed.

Lemma some_matches_false candidates h :
  some_matches candidates (clean h) = false <->
  forall c, c ∈ candidates -> clean c <> clean h.
Proof.
  split.
  - intros Hf c Hin Heq.
    assert (some_matches candidates (clean h) = true) as Ht
      by (apply some_matches_true; eauto).
    congruence.
  - intros Hall. destruct (some_matches candidates (clean h)) eqn:E; [|done].
    apply some_matches_true in E as (c & Hin & Heq). by destruct (Hall c Hin).
Qed.

(** The loop returns the first entry with a matching alias, and the raw
    header when there is none. *)
Lemma getMasterKey_with_cases table h :
  (exists pre master candidates post,
      table = pre ++ (master, candidates) :: post /\
      Forall (fun e => some_matches (snd e) (clean h) = false) pre /\
      some_matches candidates (clean h) = true /\
      getMasterKey_with table h = master)
  \/ (Forall (fun e => some_matches (snd e) (clean h) = false) table /\
      getMasterKey_with table h = h).
Proof.
  unfold getMasterKey_with.
  induction table as [|[master candidates] table IH]; simpl.
  - right. by split.
  - destruct (some_matches candidates (clean h)) eqn:E.
    + left. exists [], master, candidates, table. by repeat split.
    + destruct IH as [(pre & m & cs & post & -> & Hpre & Hm & Hres)|[Hall Hres]].
      * left. exists ((master, candidates) :: pre), m, cs, post.
        repeat split; [by constructor | done | done].
      * right. split; [by constructor | done].
Qed.

Lemma getMasterKey_with_first table1 master candidates table2 h :
  Forall (fun e => some_matches (snd e) (clean h) = false) table1 ->
  some_matches candidates (clean h) = true ->
  getMasterKey_with (table1 ++ (master, candidates) :: table2) h = master.
Proof.
  unfold getMasterKey_with. intros Hpre Hm.
  induction Hpre as [|[m cs] table1 Hx Hpre IH]; simpl in *.
  - by rewrite Hm.
  - by rewrite Hx.
Qed.

(** C6: the header canonicalizer is a total function of the header string
    alone: for every string it returns either a canonical field one of whose
    aliases equals the header after [toLowerCase] and [trim], or, when no
    alias of any field does, the header itself, unmodified; and
    [" mfr.  "] and ["MFR."] both canonicalize to ["Manufacturer"]. *)
Theorem getMasterKey_total_alias_or_passthrough :
  (forall h : string,
      (exists master candidates c,
          (master, candidates) ∈ mapping /\ c ∈ candidates /\
          clean c = clean h /\ getMasterKey h = master)
      \/ ((forall master candidates c,
              (master, candidates) ∈ mapping -> c ∈ candidates ->
              clean c <> clean h)
          /\ getMasterKey h = h))
  /\ getMasterKey " mfr.  " = "Manufacturer"
  /\ getMasterKey "MFR." = "Manufacturer"
  /\ getMasterKey "" = "".
Proof.
  split; [|rewrite !(@getMasterKey_on_ascii HS) by reflexivity;
           repeat split; vm_compute; reflexivity].
  intros h. unfold getMasterKey.
  destruct (getMasterKey_with_cases mapping h)
    as [(pre & m & cs & post & Htab & _ & Hm & Hres)|[Hall Hres]].
  - left. apply some_matches_true in Hm as (c & Hc & Heq).
    exists m, cs, c. repeat split; [|done..].
    rewrite Htab. apply elem_of_app. right. apply list_elem_of_here.
  - right. split; [|done].
    intros master candidates c Hin Hc.
    rewrite Forall_forall in Hall. specialize (Hall _ Hin). simpl in Hall.
    by apply (proj1 (some_matches_false _ _) Hall).
Qed.

(** C7: when the cleaned header equals a cleaned alias of two fields of an
    alias table, and of no field declared before the earlier of the two,
    the canonicalizer returns the earlier field; in the shipped table
    ["Availability"] is an alias of both ['Stock Status'] and
    ['Quantity Avail.'] and canonicalizes to ["Stock Status"]. *)
Theorem getMasterKey_first_match_wins :
  (forall table1 master1 candidates1 table2 master2 candidates2 table3 h,
      (forall master candidates c,
          (master, candidates) ∈ table1 -> c ∈ candidates ->
          clean c <> clean h) ->
      (exists c, c ∈ candidates1 /\ clean c = clean h) ->
      (exists c, c ∈ candidates2 /\ clean c = clean h) ->
      getMasterKey_with
        (table1 ++ (master1, candidates1) :: table2 ++
         (master2, candidates2) :: table3) h = master1)
  /\ (exists table1 candidates1 table2 candidates2 table3,
         mapping = table1 ++ ("Stock Status", candidates1) :: table2 ++
                   ("Quantity Avail.", candidates2) :: table3
         /\ "Availability" ∈ candidates1
         /\ "Availability" ∈ candidates2)
  /\ getMasterKey "Availability" = "Stock Status".
Proof.
  split; [|split].
  - intros table1 master1 candidates1 table2 master2 candidates2 table3 h
      Hpre H1 _.
    apply getMasterKey_with_first.
    + apply Forall_forall. intros [m cs] Hin. simpl.
      apply some_matches_false. intros c Hc. by apply (Hpre m cs c).
    + by apply some_matches_true.
  - exists (take 6 mapping), ["Availability"; "BOM: Stock Status"; "Stock Status"],
      [], ["BOM: Stock Availability"; "Availability"], (drop 8 mapping).
    split; [reflexivity|]. split.
    + apply list_elem_of_here.
    + apply list_elem_of_further, list_elem_of_here.
  - rewrite (@getMasterKey_on_ascii HS) by reflexivity.
    vm_compute. reflexivity.
Qed.

End Canonicalizer.

(** ** Row mapper *)

Section RowMapper.
Context {num : Type} {HN : JsNumber num} {HS : JsStringOps}.
Implicit Types (row mappedRow : obj num) (h k : string) (v : value num).

Lemma mapRow_keys_entries row entries mappedRow :
  (forall h v, (h, v) ∈ entries -> Alist.lookup row h = Some v) ->
  fold_left
    (fun m h => Alist.set m (getMasterKey h) (obj_get row h))
    (Alist.keys entries) mappedRow
  = mapRow_entries entries mappedRow.
Proof.
  revert mappedRow. induction entries as [|[h v] entries IH]; intros m Hrow.
  - done.
  - simpl. rewrite IH.
    + unfold obj_get. by rewrite (Hrow h v (list_elem_of_here _ _)).
    + intros h' v' Hin. apply Hrow. by apply list_elem_of_further.
Qed.

Lemma mapRow_as_entries row :
  NoDup (Alist.keys row) -> mapRow row = mapRow_entries row [].
Proof.
  intros Hnd. unfold mapRow. apply mapRow_keys_entries.
  intros h v. by apply AlistFacts.lookup_NoDup.
Qed.

Lemma mapRow_entries_other entries mappedRow k :
  (forall h, h ∈ Alist.keys entries -> getMasterKey h <> k) ->
  Alist.lookup (mapRow_entries entries mappedRow) k = Alist.lookup mappedRow k.
Proof.
  revert mappedRow. induction entries as [|[h v] entries IH]; intros m Hne.
  - done.
  - simpl. rewrite IH.
    + apply AlistFacts.lookup_set_ne, Hne. apply list_elem_of_here.
    + intros h' Hin. apply Hne. simpl. by apply list_elem_of_further.
Qed.

(** A mapped record is an object: its keys are unique. *)
Lemma NoDup_keys_mapRow row : NoDup (Alist.keys (mapRow row)).
Proof.
  unfold mapRow. generalize (Alist.keys row).
  assert (NoDup (Alist.keys (@nil (string * value num)))) as Hnil by constructor.
  revert Hnil. generalize (@nil (string * value num)).
  intros m Hm l. revert m Hm. induction l as [|h l IH]; intros m Hm; [done|].
  simpl. by apply IH, AlistFacts.NoDup_keys_set.
Qed.

(** C9: when two headers of one raw record canonicalize to the same
    field, the mapped record holds, for that field, the value of the later
    header in the record's enumeration order (later headers that
    canonicalize to the same field would win in turn, so the later header
    is the last such one). *)
Theorem mapRow_later_header_wins
    row entries1 h1 v1 entries2 h2 v2 entries3 :
  row = entries1 ++ (h1, v1) :: entries2 ++ (h2, v2) :: entries3 ->
  NoDup (Alist.keys row) ->
  getMasterKey h1 = getMasterKey h2 ->
  (forall h, h ∈ Alist.keys entries3 -> getMasterKey h <> getMasterKey h2) ->
  Alist.lookup (mapRow row) (getMasterKey h2) = Some v2
  /\ obj_get (mapRow row) (getMasterKey h1) = v2.
Proof.
  intros Hrow Hnd Hsame Hlast.
  assert (Alist.lookup (mapRow row) (getMasterKey h2) = Some v2) as Hl.
  { rewrite (mapRow_as_entries row Hnd). rewrite Hrow.
    unfold mapRow_entries.
    rewrite fold_left_app. simpl. rewrite fold_left_app. simpl.
    change (fold_left _ entries3 ?m) with (mapRow_entries entries3 m).
    rewrite (mapRow_entries_other _ _ _ Hlast).
    apply AlistFacts.lookup_set_eq. }
  split; [done|]. unfold obj_get. by rewrite Hsame, Hl.
Qed.

End RowMapper.

(** ** Merge-fill *)

Section MergeFill.
Context {num : Type} {HN : JsNumber num} {HS : JsStringOps}.
Implicit Types (existing mappedRow o : obj num) (k : string) (v : value num).

Lemma is_undefined_true v : is_undefined v = true <-> v = VUndefined.
Proof. destruct v; simpl; split; congruence. Qed.

Lemma is_empty_string_true v : is_empty_string v = true <-> v = VStr "".
Proof.
  destruct v; simpl; try (split; congruence).
  rewrite String.eqb_eq. split; congruence.
Qed.

Lemma fills_true existing mappedRow k :
  fills existing mappedRow k = true <->
  (obj_get existing k = VUndefined \/ obj_get existing k = VStr "") /\
  obj_get mappedRow k <> VUndefined /\ obj_get mappedRow k <> VStr "".
Proof.
  unfold fills.
  rewrite !andb_true_iff, orb_true_iff, !negb_true_iff.
  rewrite <- !not_true_iff_false.
  by rewrite !is_undefined_true, !is_empty_string_true.
Qed.

Lemma obj_get_set_eq o k v : obj_get (Alist.set o k v) k = v.
Proof. unfold obj_get. by rewrite AlistFacts.lookup_set_eq. Qed.

Lemma obj_get_set_ne o k k' v :
  k <> k' -> obj_get (Alist.set o k v) k' = obj_get o k'.
Proof. intros Hne. unfold obj_get. by rewrite AlistFacts.lookup_set_ne. Qed.

(** A field that has just been filled is not filled again. *)
Lemma fills_once existing mappedRow k :
  fills existing mappedRow k = true ->
  fills (Alist.set existing k (obj_get mappedRow k)) mappedRow k = false.
Proof.
  intros Hf. unfold fills in *. rewrite obj_get_set_eq.
  apply andb_true_iff in Hf as [_ Hf].
  apply andb_true_iff in Hf as [Hu He].
  apply negb_true_iff in Hu, He. by rewrite Hu, He.
Qed.

Lemma fills_step_other existing mappedRow a k :
  a <> k ->
  fills (merge_fill_step mappedRow existing a) mappedRow k
  = fills existing mappedRow k.
Proof.
  intros Hne. unfold merge_fill_step.
  destruct (fills existing mappedRow a); [|done].
  unfold fills. by rewrite obj_get_set_ne.
Qed.

Lemma lookup_step_other existing mappedRow a k :
  a <> k ->
  Alist.lookup (merge_fill_step mappedRow existing a) k
  = Alist.lookup existing k.
Proof.
  intros Hne. unfold merge_fill_step.
  destruct (fills existing mappedRow a); [|done].
  by apply AlistFacts.lookup_set_ne.
Qed.

(** The loop over the incoming keys, field by field. *)
Lemma merge_fill_fold_lookup mappedRow ks existing k :
  Alist.lookup (fold_left (merge_fill_step mappedRow) ks existing) k =
  if bool_decide (k ∈ ks) && fills existing mappedRow k
  then Some (obj_get mappedRow k)
  else Alist.lookup existing k.
Proof.
  revert existing. induction ks as [|a ks IH]; intros existing.
  - done.
  - simpl. rewrite IH. destruct (decide (a = k)) as [->|Hne].
    + rewrite (bool_decide_eq_true_2 (k ∈ k :: ks)) by apply list_elem_of_here.
      unfold merge_fill_step. simpl.
      destruct (fills existing mappedRow k) eqn:Hf.
      * rewrite (fills_once _ _ _ Hf), andb_false_r.
        apply AlistFacts.lookup_set_eq.
      * by rewrite Hf, andb_false_r.
    + rewrite (fills_step_other _ _ _ _ Hne), (lookup_step_other _ _ _ _ Hne).
      replace (bool_decide (k ∈ a :: ks)) with (bool_decide (k ∈ ks)); [done|].
      apply bool_decide_ext. rewrite elem_of_cons.
      split; [by right | intros [Heq|Hin]; [by destruct Hne | done]].
Qed.

Lemma merge_fill_lookup existing mappedRow k :
  Alist.lookup (merge_fill existing mappedRow) k =
  if bool_decide (k ∈ Alist.keys mappedRow) && fills existing mappedRow k
  then Some (obj_get mappedRow k)
  else Alist.lookup existing k.
Proof. apply merge_fill_fold_lookup. Qed.

(** A truthy value is neither [undefined] nor the empty string, so
    merge-fill leaves it alone. *)
Lemma truthy_not_blank v :
  truthy v = true -> is_undefined v || is_empty_string v = false.
Proof.
  destruct v; simpl; try done. by intros ->%negb_true_iff.
Qed.

Lemma merge_fill_identity existing mappedRow key :
  identityKey existing = Some key ->
  identityKey (merge_fill existing mappedRow) = Some key.
Proof.
  unfold identityKey. intros Hid.
  destruct (truthy (obj_get existing "MPN")) eqn:Ht; [|done].
  assert (obj_get (merge_fill existing mappedRow) "MPN" = obj_get existing "MPN")
    as ->; [|by rewrite Ht].
  unfold obj_get at 1. rewrite merge_fill_lookup.
  unfold fills. by rewrite (truthy_not_blank _ Ht), andb_false_r.
Qed.

(** The merge step, field by field: when an incoming row has the identity
    key of a resident record, the resident after the row is its
    merge-fill: at every field of the incoming record it holds the incoming
    value if the resident reads as undefined or the empty string there and
    the incoming value is neither; in every other case, at every field, it
    holds what it held. *)
Theorem merge_fill_fills_only_blanks
    (st : State num) (row : obj num) key existing :
  identityKey (mapRow row) = Some key ->
  Alist.lookup (uniqueMap st) key = Some existing ->
  exists existing',
    Alist.lookup (uniqueMap (process_row st row)) key = Some existing'
    /\ forall k,
        (k ∈ Alist.keys (mapRow row) ->
         (obj_get existing k = VUndefined \/ obj_get existing k = VStr "") ->
         obj_get (mapRow row) k <> VUndefined ->
         obj_get (mapRow row) k <> VStr "" ->
         Alist.lookup existing' k = Some (obj_get (mapRow row) k))
        /\ (~ (k ∈ Alist.keys (mapRow row)
               /\ (obj_get existing k = VUndefined \/ obj_get existing k = VStr "")
               /\ obj_get (mapRow row) k <> VUndefined
               /\ obj_get (mapRow row) k <> VStr "") ->
            Alist.lookup existing' k = Alist.lookup existing k).
Proof.
  intros Hid Hres. exists (merge_fill existing (mapRow row)). split.
  - unfold process_row, identityKey in *.
    destruct (truthy (obj_get (mapRow row) "MPN")); [|done].
    injection Hid as ->. simpl. rewrite Hres. simpl.
    apply AlistFacts.lookup_set_eq.
  - intros k. rewrite merge_fill_lookup. split.
    + intros Hin Hblank Hu He.
      rewrite bool_decide_eq_true_2 by done.
      by rewrite (proj2 (fills_true _ _ _)).
    + intros Hnot.
      destruct (bool_decide (k ∈ Alist.keys (mapRow row))
                && fills existing (mapRow row) k) eqn:E; [|done].
      apply andb_true_iff in E as [Hin Hf].
      apply bool_decide_eq_true_1 in Hin. apply fills_true in Hf.
      destruct Hnot. tauto.
Qed.

End MergeFill.

(** ** First occurrences *)

Section FirstOccurrences.
Implicit Types (l : list string) (x : string).

Lemma elem_of_first_occurrences l x : x ∈ first_occurrences l <-> x ∈ l.
Proof.
  induction l as [|a l IH]; simpl; [done|].
  rewrite !elem_of_cons, list_elem_of_filter, IH.
  destruct (decide (x = a)) as [->|Hne]; [tauto|tauto].
Qed.

Lemma NoDup_first_occurrences l : NoDup (first_occurrences l).
Proof.
  induction l as [|a l IH]; simpl; [constructor|].
  apply NoDup_cons. split.
  - rewrite list_elem_of_filter. by intros [? _].
  - by apply NoDup_filter.
Qed.

(** As many first occurrences as distinct elements. *)
Lemma length_first_occurrences l :
  length (first_occurrences l) = length (remove_dups l).
Proof.
  apply Permutation_length, NoDup_Permutation.
  - apply NoDup_first_occurrences.
  - apply NoDup_remove_dups.
  - intros x. by rewrite elem_of_first_occurrences, elem_of_remove_dups.
Qed.

Lemma filter_unseen_new (seen : list string) x l :
  filter (fun k => k ∉ seen ++ [x]) l
  = filter (fun k => k ∉ seen) (filter (fun y => y <> x) l).
Proof.
  rewrite list_filter_filter. apply list_filter_iff. intros k.
  rewrite elem_of_app, list_elem_of_singleton. tauto.
Qed.

Lemma filter_unseen_old (seen : list string) x l :
  x ∈ seen ->
  filter (fun k => k ∉ seen) (filter (fun y => y <> x) l)
  = filter (fun k => k ∉ seen) l.
Proof.
  intros Hin. rewrite list_filter_filter. apply list_filter_iff. intros k.
  split; [tauto|]. intros Hk. split; [done|]. by intros ->.
Qed.

Lemma filter_unseen_nil l : filter (fun k => k ∉ @nil string) l = l.
Proof.
  induction l as [|x l IH]; [done|].
  rewrite filter_cons_True by apply not_elem_of_nil. by rewrite IH.
Qed.

End FirstOccurrences.

(** ** Merge engine *)

Section Engine.
Context {num : Type} {HN : JsNumber num} {HS : JsStringOps}.
Implicit Types (st : State num) (row : obj num) (data : list (obj num)).

Lemma process_row_no_identity st row :
  identityKey (mapRow row) = None ->
  process_row st row
  = {| uniqueMap := uniqueMap st; nonMpnRows := nonMpnRows st ++ [mapRow row] |}.
Proof.
  unfold identityKey, process_row.
  by destruct (truthy (obj_get (mapRow row) "MPN")).
Qed.

Lemma process_row_new st row key :
  identityKey (mapRow row) = Some key ->
  Alist.lookup (uniqueMap st) key = None ->
  process_row st row
  = {| uniqueMap := uniqueMap st ++ [(key, mapRow row)];
       nonMpnRows := nonMpnRows st |}.
Proof.
  unfold identityKey, process_row. intros Hid Hl.
  destruct (truthy (obj_get (mapRow row) "MPN")); [|done].
  injection Hid as ->. simpl. rewrite Hl.
  by rewrite AlistFacts.set_new.
Qed.

Lemma process_row_seen st row key existing :
  identityKey (mapRow row) = Some key ->
  Alist.lookup (uniqueMap st) key = Some existing ->
  process_row st row
  = {| uniqueMap := Alist.set (uniqueMap st) key (merge_fill existing (mapRow row));
       nonMpnRows := nonMpnRows st |}.
Proof.
  unfold identityKey, process_row. intros Hid Hl.
  destruct (truthy (obj_get (mapRow row) "MPN")); [|done].
  injection Hid as ->. simpl. by rewrite Hl.
Qed.

Lemma identityKey_has_identity (r : obj num) :
  has_identity r = false <-> identityKey r = None.
Proof.
  unfold has_identity, identityKey.
  by destruct (truthy (obj_get r "MPN")).
Qed.

Lemma no_identity_rows_cons row data :
  no_identity_rows (row :: data)
  = match identityKey (mapRow row) with
    | None => mapRow row :: no_identity_rows data
    | Some _ => no_identity_rows data
    end.
Proof.
  unfold no_identity_rows. simpl. rewrite filter_cons.
  destruct (identityKey (mapRow row)) eqn:E.
  - rewrite decide_False; [done|]. rewrite identityKey_has_identity. congruence.
  - rewrite decide_True; [done|]. by apply identityKey_has_identity.
Qed.

Lemma no_identity_rows_app data1 data2 :
  no_identity_rows (data1 ++ data2)
  = no_identity_rows data1 ++ no_identity_rows data2.
Proof. unfold no_identity_rows. by rewrite map_app, filter_app. Qed.

Lemma keyed_keys_cons row data :
  keyed_keys (row :: data)
  = match identityKey (mapRow row) with
    | None => keyed_keys data
    | Some key => key :: keyed_keys data
    end.
Proof. unfold keyed_keys. simpl. by destruct (identityKey (mapRow row)). Qed.

(** Group (b) grows by the rows without identity, in input order. *)
Lemma process_rows_nonMpnRows st data :
  nonMpnRows (process_rows st data) = nonMpnRows st ++ no_identity_rows data.
Proof.
  revert st. induction data as [|row data IH]; intros st.
  - simpl. by rewrite app_nil_r.
  - unfold process_rows in *. rewrite no_identity_rows_cons.
    cbn [fold_left]. rewrite IH.
    destruct (identityKey (mapRow row)) as [key|] eqn:Hid.
    + destruct (Alist.lookup (uniqueMap st) key) as [existing|] eqn:Hl.
      * by rewrite (process_row_seen _ _ _ _ Hid Hl).
      * by rewrite (process_row_new _ _ _ Hid Hl).
    + rewrite (process_row_no_identity _ _ Hid). simpl.
      by rewrite <- app_assoc.
Qed.

(** The keys of the [Map] grow by the unseen keys, in order of first
    occurrence. *)
Lemma process_rows_keys st data :
  Alist.keys (uniqueMap (process_rows st data))
  = Alist.keys (uniqueMap st)
    ++ filter (fun k => k ∉ Alist.keys (uniqueMap st))
         (first_occurrences (keyed_keys data)).
Proof.
  revert st. induction data as [|row data IH]; intros st.
  - simpl. by rewrite app_nil_r.
  - unfold process_rows in *. rewrite keyed_keys_cons.
    cbn [fold_left]. rewrite IH.
    destruct (identityKey (mapRow row)) as [key|] eqn:Hid.
    + cbn [first_occurrences]. rewrite filter_cons.
      destruct (Alist.lookup (uniqueMap st) key) as [existing|] eqn:Hl.
      * rewrite (process_row_seen _ _ _ _ Hid Hl). simpl.
        rewrite (AlistFacts.keys_set_old _ _ _ _ Hl).
        assert (key ∈ Alist.keys (uniqueMap st)) as Hin.
        { destruct (decide (key ∈ Alist.keys (uniqueMap st))) as [|Hn]; [done|].
          apply AlistFacts.lookup_None in Hn. congruence. }
        rewrite decide_False by (intros Hn; by apply Hn).
        by rewrite filter_unseen_old.
      * rewrite (process_row_new _ _ _ Hid Hl). simpl.
        rewrite AlistFacts.keys_snoc.
        rewrite decide_True by (by apply AlistFacts.lookup_None).
        by rewrite filter_unseen_new, <- app_assoc.
    + by rewrite (process_row_no_identity _ _ Hid).
Qed.

Lemma process_row_residents_keyed st row :
  residents_keyed (uniqueMap st) ->
  residents_keyed (uniqueMap (process_row st row)).
Proof.
  intros Hinv. destruct (identityKey (mapRow row)) as [key|] eqn:Hid.
  - destruct (Alist.lookup (uniqueMap st) key) as [existing|] eqn:Hl.
    + rewrite (process_row_seen _ _ _ _ Hid Hl). simpl.
      apply AlistFacts.Forall_set; [done|]. simpl.
      apply merge_fill_identity.
      apply AlistFacts.lookup_Some_elem in Hl.
      unfold residents_keyed in Hinv. rewrite Forall_forall in Hinv.
      apply (Hinv _ Hl).
    + rewrite (process_row_new _ _ _ Hid Hl). simpl.
      apply Forall_app. split; [done|]. by constructor.
  - by rewrite (process_row_no_identity _ _ Hid).
Qed.

Lemma process_rows_residents_keyed st data :
  residents_keyed (uniqueMap st) ->
  residents_keyed (uniqueMap (process_rows st data)).
Proof.
  revert st. induction data as [|row data IH]; intros st Hinv; [done|].
  unfold process_rows in *. simpl. by apply IH, process_row_residents_keyed.
Qed.

Lemma residents_keyed_values (um : Alist.alist (obj num)) :
  residents_keyed um ->
  map identityKey (Alist.values um) = map Some (Alist.keys um).
Proof.
  induction 1 as [|[k r] um Hx Hum IH]; simpl in *; [done|].
  by rewrite Hx, IH.
Qed.

(** The [Map] after a run does not depend on the rows set aside. *)
Lemma process_rows_uniqueMap_indep st st' data :
  uniqueMap st = uniqueMap st' ->
  uniqueMap (process_rows st data) = uniqueMap (process_rows st' data).
Proof.
  revert st st'. induction data as [|row data IH]; intros st st' Heq; [done|].
  unfold process_rows in *. simpl. apply IH.
  unfold process_row. rewrite Heq.
  destruct (negb (truthy (obj_get (mapRow row) "MPN"))); [done|].
  by destruct (Alist.lookup (uniqueMap st') _).
Qed.

Lemma normalized_normalizeData data :
  normalized (normalizeData data)
  = Alist.values (uniqueMap (process_rows init data))
    ++ nonMpnRows (process_rows init data).
Proof. by destruct data. Qed.

End Engine.

(** ** Results of a run *)

Section Run.
Context {num : Type} {HN : JsNumber num} {HS : JsStringOps}.
Implicit Types (row : obj num) (data : list (obj num)).

(** C3, as the program has it: for the empty input the early return gives
    an empty [normalized] sequence, a null [mpnHeader] and no [stats]
    object at all. *)
Theorem normalizeData_empty :
  normalizeData ([] : list (obj num))
  = {| normalized := []; mpnHeader := None; stats := None |}.
Proof. reflexivity. Qed.


(** The order of the output, with identity as the loop decides it: the
    output is the residents of the [Map] followed by the rows set aside;
    the residents are one per distinct key, in order of the first
    occurrence of the key in the input; the rows set aside are in input
    order; every resident has a truthy [MPN] and no row set aside has
    one. *)
Theorem normalized_groups_in_order data :
  exists groupA groupB,
    normalized (normalizeData data) = groupA ++ groupB
    /\ map identityKey groupA = map Some (first_occurrences (keyed_keys data))
    /\ groupB = no_identity_rows data
    /\ Forall (fun r => has_identity r = true) groupA
    /\ Forall (fun r => has_identity r = false) groupB.
Proof.
  exists (Alist.values (uniqueMap (process_rows init data))),
    (nonMpnRows (process_rows init data)).
  assert (residents_keyed (uniqueMap (process_rows init data))) as Hinv
    by (apply process_rows_residents_keyed; constructor).
  split; [apply normalized_normalizeData|]. split; [|split; [|split]].
  - rewrite (residents_keyed_values _ Hinv), process_rows_keys. simpl.
    by rewrite filter_unseen_nil.
  - by rewrite process_rows_nonMpnRows.
  - unfold residents_keyed in Hinv. unfold Alist.values.
    apply Forall_fmap. eapply Forall_impl; [exact Hinv|].
    intros [k r] Hid. simpl in *. unfold has_identity.
    unfold identityKey in Hid.
    by destruct (truthy (obj_get r "MPN")).
  - rewrite process_rows_nonMpnRows. simpl. unfold no_identity_rows.
    apply Forall_forall. intros r Hr.
    by apply list_elem_of_filter in Hr as [? _].
Qed.

(** A row without identity leaves the [Map] as it is and goes, unchanged,
    between the rows without identity before and after it. *)
Lemma no_identity_row_set_aside data1 row data2 :
  identityKey (mapRow row) = None ->
  normalized (normalizeData (data1 ++ row :: data2))
  = Alist.values (uniqueMap (process_rows init (data1 ++ data2)))
    ++ no_identity_rows data1 ++ mapRow row :: no_identity_rows data2.
Proof.
  intros Hid. rewrite normalized_normalizeData, process_rows_nonMpnRows.
  simpl. rewrite no_identity_rows_app, no_identity_rows_cons, Hid.
  f_equal. f_equal. unfold process_rows. rewrite !fold_left_app. simpl.
  apply process_rows_uniqueMap_indep.
  by rewrite (process_row_no_identity _ _ Hid).
Qed.

(** C10: a record whose [MPN] field is present but holds a falsy value
    other than the empty string (the number zero, say) has no identity: the
    output is the output of the input without that record, with the mapped
    record inserted, unchanged, in group (b) at its place among the records
    without identity; so group (a) is what it would be without the record. *)
Theorem falsy_mpn_row_has_no_identity data1 row data2 v :
  Alist.lookup (mapRow row) "MPN" = Some v ->
  truthy v = false ->
  v <> VStr "" ->
  identityKey (mapRow row) = None
  /\ normalized (normalizeData (data1 ++ row :: data2))
     = Alist.values (uniqueMap (process_rows init (data1 ++ data2)))
       ++ no_identity_rows data1 ++ mapRow row :: no_identity_rows data2
  /\ normalized (normalizeData (data1 ++ data2))
     = Alist.values (uniqueMap (process_rows init (data1 ++ data2)))
       ++ no_identity_rows data1 ++ no_identity_rows data2.
Proof.
  intros Hl Hfalsy _.
  assert (identityKey (mapRow row) = None) as Hid.
  { unfold identityKey, obj_get. by rewrite Hl, Hfalsy. }
  split; [done|]. split.
  - by apply no_identity_row_set_aside.
  - rewrite normalized_normalizeData, process_rows_nonMpnRows. simpl.
    by rewrite no_identity_rows_app.
Qed.

End Run.

(** ** White-space part numbers *)

Section EngineOnAscii.
Context {num : Type} {HN : JsNumber num} {HS : JsStringOps}.
Import JsString.

(** On ASCII rows the engine is the engine with the ASCII built-ins, which
    computes. *)
Lemma mapRow_fold_on_ascii (row : obj num) hs (acc : obj num) :
  forallb is_ascii hs = true ->
  fold_left (fun m h => Alist.set m (getMasterKey h) (obj_get row h)) hs acc
  = fold_left
      (fun m h => Alist.set m (getMasterKey (HS := AsciiStrings) h) (obj_get row h))
      hs acc.
Proof.
  revert acc. induction hs as [|h hs IH]; intros acc; simpl; [done|].
  intros [Hh Hhs]%andb_true_iff. by rewrite (getMasterKey_on_ascii h Hh), IH.
Qed.

Lemma mapRow_on_ascii (row : obj num) :
  forallb is_ascii (Alist.keys row) = true ->
  mapRow row = mapRow (HS := AsciiStrings) row.
Proof. apply mapRow_fold_on_ascii. Qed.

Lemma mpn_key_on_ascii (v : value num) :
  is_ascii (to_string v) = true -> mpn_key v = mpn_key (HS := AsciiStrings) v.
Proof.
  intros Hv. unfold mpn_key.
  rewrite (trim_on_ascii _ Hv).
  by rewrite (toUpperCase_on_ascii _ (is_ascii_trim _ Hv)).
Qed.

Lemma identityKey_on_ascii (m : obj num) :
  is_ascii (to_string (obj_get m "MPN")) = true ->
  identityKey m = identityKey (HS := AsciiStrings) m.
Proof. intros Hm. unfold identityKey. by rewrite (mpn_key_on_ascii _ Hm). Qed.

Lemma process_row_on_ascii (st : State num) (row : obj num) :
  ascii_row row = true ->
  process_row st row = process_row (HS := AsciiStrings) st row.
Proof.
  intros [Hkeys Hmpn]%andb_true_iff. unfold process_row.
  rewrite (mapRow_on_ascii row Hkeys). cbv zeta.
  by rewrite (mpn_key_on_ascii _ Hmpn).
Qed.

Lemma process_rows_on_ascii (st : State num) (data : list (obj num)) :
  forallb ascii_row data = true ->
  process_rows st data = process_rows (HS := AsciiStrings) st data.
Proof.
  revert st. unfold process_rows.
  induction data as [|row data IH]; intros st; simpl; [done|].
  intros [Hrow Hdata]%andb_true_iff.
  by rewrite (process_row_on_ascii st row Hrow), IH.
Qed.

Lemma normalizeData_on_ascii (data : list (obj num)) :
  forallb ascii_row data = true ->
  normalizeData data = normalizeData (HS := AsciiStrings) data.
Proof.
  intros Hdata. unfold normalizeData. destruct data as [|row data]; [done|].
  by rewrite (process_rows_on_ascii init _ Hdata).
Qed.

End EngineOnAscii.

Section WhiteSpace.
Context {num : Type} {HN : JsNumber num} {HS : JsStringOps}.

Lemma trim_all_space s :
  JsString.all_space s = true -> JsString.trim_ascii s = "".
Proof.
  unfold JsString.trim_ascii. induction s as [|a s IH]; simpl; [done|].
  intros [Ha Hs]%andb_true_iff. rewrite Ha. by apply IH.
Qed.

Lemma is_space_ascii a :
  JsString.is_space a = true -> (N_of_ascii a <? 128)%N = true.
Proof. destruct a as [[] [] [] [] [] [] [] []]; vm_compute; congruence. Qed.

Lemma all_space_is_ascii s :
  JsString.all_space s = true -> JsString.is_ascii s = true.
Proof.
  induction s as [|a s IH]; simpl; [done|].
  intros [Ha Hs]%andb_true_iff. by rewrite (is_space_ascii a Ha), IH.
Qed.

(** Every non-empty string of white space is truthy and gets the empty
    key, so all such records share one identity. *)
Lemma whitespace_mpn_identity (o : obj num) s :
  obj_get o "MPN" = VStr s ->
  s <> "" ->
  JsString.all_space s = true ->
  identityKey o = Some "".
Proof.
  intros Hget Hne Hsp. unfold identityKey. rewrite Hget. simpl.
  destruct (String.eqb_spec s ""); [done|]. simpl.
  unfold mpn_key. simpl.
  rewrite (trim_on_ascii s (all_space_is_ascii s Hsp)), (trim_all_space s Hsp).
  by rewrite (toUpperCase_on_ascii "" eq_refl).
Qed.

(** C2, on the program: two unrelated records whose [MPN] is a string of
    spaces both get the identity key [""]; the second is merged into the
    first, the output is one record of group (a) and [merged] is 1. *)
Theorem whitespace_mpn_rows_are_merged :
  identityKey (mapRow Samples.blank_mpn_resistor) = Some ""
  /\ identityKey (mapRow Samples.blank_mpn_acme) = Some ""
  /\ normalizeData [Samples.blank_mpn_resistor; Samples.blank_mpn_acme]
     = {| normalized :=
            [[("MPN", VStr " "); ("Description", VStr "resistor");
              ("Manufacturer", VStr "Acme")]];
          mpnHeader := Some "MPN";
          stats := Some {| merged := 1; total := 1; original := 2 |} |}.
Proof.
  rewrite !(@mapRow_on_ascii Z HS) by reflexivity.
  rewrite !(@identityKey_on_ascii Z _ HS) by reflexivity.
  rewrite (@normalizeData_on_ascii Z _ HS) by reflexivity.
  repeat split; vm_compute; reflexivity.
Qed.

End WhiteSpace.

(** ** Identity in the words of the specification *)

Section SpecIdentity.
Context {num : Type} {HN : JsNumber num} {HS : JsStringOps}.
Implicit Types (m row : obj num) (data : list (obj num)).






Lemma spec_identityKey_on_ascii m :
  JsString.is_ascii (to_string (obj_get m "MPN")) = true ->
  spec_identityKey m = spec_identityKey (HS := AsciiStrings) m.
Proof.
  intros Hm. unfold spec_identityKey.
  rewrite (trim_on_ascii _ Hm).
  by rewrite (toUpperCase_on_ascii _ (is_ascii_trim _ Hm)).
Qed.

End SpecIdentity.

Section SpecIdentityRows.
Context {HS : JsStringOps}.

(** C5, on the program: a record whose [MPN] is a single space has no
    identity in the words of the specification, and the record after it
    has the identity X1; the claim puts the keyed record first and the
    record without identity after it, the program registers the
    white-space record under the key [""] and puts it first. *)
Theorem whitespace_mpn_row_leads_group_a :
  spec_identityKey (mapRow Samples.blank_part_number) = None
  /\ spec_identityKey (mapRow Samples.vendor_x1) = Some "X1"
  /\ normalized (normalizeData [Samples.blank_part_number; Samples.vendor_x1])
     = [ [("MPN", VStr " "); ("Description", VStr "resistor")];
         [("MPN", VStr " x1 "); ("Manufacturer", VStr "Acme")] ].
Proof.
  rewrite !(@mapRow_on_ascii Z HS) by reflexivity.
  rewrite !(@spec_identityKey_on_ascii Z _ HS) by reflexivity.
  rewrite (@normalizeData_on_ascii Z _ HS) by reflexivity.
  repeat split; vm_compute; reflexivity.
Qed.

(** C1, on the program: two records have the identity X1; the resident
    one has no field [constructor] and the incoming one has the non-empty
    value "Acme" there; the claim fills the field, the program reads the
    inherited member on the resident and leaves the field unfilled: the
    output record has the one field [MPN]. *)
Theorem inherited_field_is_never_filled :
  spec_identityKey (mapRow Samples.bare_x1) = Some "X1"
  /\ spec_identityKey (mapRow Samples.x1_with_constructor) = Some "X1"
  /\ Alist.lookup (mapRow Samples.bare_x1) "constructor" = None
  /\ Alist.lookup (mapRow Samples.x1_with_constructor) "constructor"
     = Some (VStr "Acme")
  /\ normalizeData [Samples.bare_x1; Samples.x1_with_constructor]
     = {| normalized := [[("MPN", VStr "X1")]];
          mpnHeader := Some "MPN";
          stats := Some {| merged := 1; total := 1; original := 2 |} |}.
Proof.
  rewrite !(@mapRow_on_ascii Z HS) by reflexivity.
  rewrite !(@spec_identityKey_on_ascii Z _ HS) by reflexivity.
  rewrite (@normalizeData_on_ascii Z _ HS) by reflexivity.
  repeat split; vm_compute; reflexivity.
Qed.

End SpecIdentityRows.

(** ** Condensed projector *)

Section Projector.
Context {num : Type} {HN : JsNumber num} {HS : JsStringOps}.

(** The nine display columns, in order; each holds the value of its
    canonical field when that value is truthy and the empty string
    otherwise. *)
Lemma condense_row_columns (row : obj num) :
  condense_row row
  = [ ("Manufacturer", js_or (obj_get row "Manufacturer") (VStr ""));
      ("MPN", js_or (obj_get row "MPN") (VStr ""));
      ("Min / Mult (MOQ)", js_or (obj_get row "Min/Mult (MOQ)") (VStr ""));
      ("Unit Price", js_or (obj_get row "Unit Price") (VStr ""));
      ("Stock Status", js_or (obj_get row "Stock Status") (VStr ""));
      ("Quantity Avail.", js_or (obj_get row "Quantity Avail.") (VStr ""));
      ("Description", js_or (obj_get row "Description") (VStr ""));
      ("Datasheet", js_or (obj_get row "Datasheet") (VStr ""));
      ("Product Link", js_or (obj_get row "Product Link") (VStr "")) ].
Proof. reflexivity. Qed.

Lemma generateCondensedData_length (data : list (obj num)) :
  length (generateCondensedData data) = length data.
Proof. unfold generateCondensedData. apply length_map. Qed.

Lemma js_or_empty_absent (row : obj num) k :
  Alist.lookup row k = None ->
  inherited k = false ->
  js_or (obj_get row k) (VStr "") = VStr "".
Proof. intros Hl Hk. unfold obj_get. by rewrite Hl, Hk. Qed.

Lemma js_or_empty_truthy (v : value num) :
  truthy v = true -> js_or v (VStr "") = v.
Proof. intros Ht. unfold js_or. by rewrite Ht. Qed.

Lemma js_or_empty_falsy (v : value num) :
  truthy v = false -> js_or v (VStr "") = VStr "".
Proof. intros Ht. unfold js_or. by rewrite Ht. Qed.

End Projector.

(** C8, on the program: the record of an out-of-stock part has the field
    ['Quantity Avail.'] present with the number 0; the condensed record has
    the nine display columns, but its ['Quantity Avail.'] column is the
    empty string, not the record's value. *)
Theorem condensed_blanks_zero_quantity :
  Alist.lookup Samples.out_of_stock "Quantity Avail." = Some (VNum 0%Z)
  /\ generateCondensedData [Samples.out_of_stock]
     = [[ ("Manufacturer", VStr ""); ("MPN", VStr "X1");
          ("Min / Mult (MOQ)", VStr ""); ("Unit Price", VStr "");
          ("Stock Status", VStr ""); ("Quantity Avail.", VStr "");
          ("Description", VStr ""); ("Datasheet", VStr "");
          ("Product Link", VStr "") ]].
Proof. by split. Qed.

(** ** The properties at concrete inputs *)

Module Concrete.
Import Samples.

#[local] Existing Instance AsciiStrings.

Example trim_both_ends : trim "  a b  " = "a b".
Proof. reflexivity. Qed.

Example trim_tabs_and_newlines :
  trim (String "009" (String "010" "x y" ++ String "013" " ")) = "x y".
Proof. reflexivity. Qed.

Example clean_header : clean " Mfr Part NUMBER " = "mfr part number".
Proof. reflexivity. Qed.

Example key_derivation :
  mpn_key (VStr " abc123 " : value Z) = "ABC123"
  /\ mpn_key (VStr "ABC123" : value Z) = "ABC123"
  /\ mpn_key (VNum 4700%Z) = "4700"
  /\ identityKey ([("MPN", VStr "")] : obj Z) = None
  /\ identityKey ([("MPN", VUndefined)] : obj Z) = None
  /\ identityKey ([("Description", VStr "x")] : obj Z) = None.
Proof. by repeat split. Qed.

Example passthrough_keeps_spelling : getMasterKey " Notes " = " Notes ".
Proof. reflexivity. Qed.

(** The merge scenario, end to end. *)
Example merge_scenario_result :
  normalizeData [acme_x1; priced_x1]
  = {| normalized :=
         [[("MPN", VStr "X1"); ("Manufacturer", VStr "Acme");
           ("Price", VStr "1.00")]];
       mpnHeader := Some "MPN";
       stats := Some {| merged := 1; total := 1; original := 2 |} |}.
Proof. reflexivity. Qed.

(** Records without any part number all stay, in order. *)
Example no_mpn_at_all :
  normalizeData
    [ [("Description", VStr "b")]; []; [("Description", VStr "a")] ]
  = {| normalized :=
         [ [("Description", VStr "b")]; []; [("Description", VStr "a")] ]
         : list (obj Z);
       mpnHeader := Some "MPN";
       stats := Some {| merged := 0; total := 3; original := 3 |} |}.
Proof. reflexivity. Qed.

(** For the empty input the returned object has no [stats]; in
    particular it is not the all-zero statistics. *)
Lemma empty_input_stats_not_zero :
  stats (normalizeData ([] : list (obj Z)))
  <> Some {| merged := 0; total := 0; original := 0 |}.
Proof. discriminate. Qed.


(** The merge scenario: the priced record is folded into the resident
    Acme record. *)
Lemma merge_fill_scenario :
  (identityKey (mapRow priced_x1) = Some "X1"
   /\ Alist.lookup (uniqueMap (process_rows init [acme_x1])) "X1" = Some acme_x1)
  /\ exists existing',
      Alist.lookup
        (uniqueMap (process_row (process_rows init [acme_x1]) priced_x1)) "X1"
      = Some existing'
      /\ forall k,
          (k ∈ Alist.keys (mapRow priced_x1) ->
           (obj_get acme_x1 k = VUndefined \/ obj_get acme_x1 k = VStr "") ->
           obj_get (mapRow priced_x1) k <> VUndefined ->
           obj_get (mapRow priced_x1) k <> VStr "" ->
           Alist.lookup existing' k = Some (obj_get (mapRow priced_x1) k))
          /\ (~ (k ∈ Alist.keys (mapRow priced_x1)
                 /\ (obj_get acme_x1 k = VUndefined \/ obj_get acme_x1 k = VStr "")
                 /\ obj_get (mapRow priced_x1) k <> VUndefined
                 /\ obj_get (mapRow priced_x1) k <> VStr "") ->
              Alist.lookup existing' k = Alist.lookup acme_x1 k).
Proof.
  split; [split; reflexivity|].
  apply (merge_fill_fills_only_blanks
           (process_rows init [acme_x1]) priced_x1 "X1" acme_x1);
    reflexivity.
Defined.

(** With white-space-only part numbers the count of the specification and
    the count of the program part: two records without identity there, one
    output record here. *)
Example whitespace_rows_miscounted :
  length (remove_dups (spec_keyed_keys [blank_mpn_resistor; blank_mpn_acme]))
  + length (spec_no_identity_rows [blank_mpn_resistor; blank_mpn_acme]) = 2
  /\ stats (normalizeData [blank_mpn_resistor; blank_mpn_acme])
     = Some {| merged := 1; total := 1; original := 2 |}.
Proof. split; vm_compute; reflexivity. Qed.


Lemma first_match_test_table :
  getMasterKey_with stock_first "AVAILABILITY " = "Stock".
Proof.
  apply (proj1 getMasterKey_first_match_wins
           [] "Stock" ["Availability"] [] "Qty" [" availability"] []
           "AVAILABILITY ").
  - intros master candidates c Hin. by apply elem_of_nil in Hin.
  - exists "Availability". split; [apply list_elem_of_here | reflexivity].
  - exists " availability". split; [apply list_elem_of_here | reflexivity].
Defined.

Lemma later_part_number_wins :
  Alist.lookup (mapRow two_part_numbers) (getMasterKey "Part Number")
  = Some (VStr "B")
  /\ obj_get (mapRow two_part_numbers) (getMasterKey "Mfr Part Number")
     = VStr "B".
Proof.
  apply (mapRow_later_header_wins two_part_numbers
           [] "Mfr Part Number" (VStr "A") [] "Part Number" (VStr "B")
           [("Quantity", VNum 3%Z)]).
  - reflexivity.
  - apply (bool_decide_unpack _). vm_compute. exact I.
  - reflexivity.
  - intros h Hin. apply list_elem_of_singleton in Hin. rewrite Hin.
    vm_compute. discriminate.
Defined.

Lemma zero_mpn_set_aside :
  (Alist.lookup (mapRow zero_mpn) "MPN" = Some (VNum 0%Z)
   /\ truthy (VNum 0%Z) = false
   /\ VNum 0%Z <> VStr "")
  /\ identityKey (mapRow zero_mpn) = None
  /\ normalized (normalizeData ([acme_x1] ++ zero_mpn :: [priced_x1]))
     = Alist.values (uniqueMap (process_rows init ([acme_x1] ++ [priced_x1])))
       ++ no_identity_rows [acme_x1] ++ mapRow zero_mpn :: no_identity_rows [priced_x1]
  /\ normalized (normalizeData ([acme_x1] ++ [priced_x1]))
     = Alist.values (uniqueMap (process_rows init ([acme_x1] ++ [priced_x1])))
       ++ no_identity_rows [acme_x1] ++ no_identity_rows [priced_x1].
Proof.
  split; [repeat split; discriminate|].
  apply (falsy_mpn_row_has_no_identity [acme_x1] zero_mpn [priced_x1] (VNum 0%Z)).
  - reflexivity.
  - reflexivity.
  - discriminate.
Defined.

End Concrete.

(** * Further properties of the code *)

(** ** Association lists, continued *)

Module AlistMore.
Import Alist.

Section Facts.
Context {V : Type}.
Implicit Types (o : alist V) (k : string) (v : V).

Lemma elem_of_keys_set o k v k' :
  k' ∈ keys (set o k v) <-> k' = k \/ k' ∈ keys o.
Proof.
  destruct (lookup o k) as [v'|] eqn:Hl.
  - rewrite (AlistFacts.keys_set_old _ _ _ _ Hl). split; [tauto|].
    intros [->|Hin]; [|done].
    destruct (decide (k ∈ keys o)) as [|Hn]; [done|].
    apply AlistFacts.lookup_None in Hn. congruence.
  - rewrite (AlistFacts.set_new _ _ _ Hl), AlistFacts.keys_snoc.
    rewrite elem_of_app, list_elem_of_singleton. tauto.
Qed.

Lemma set_same o k v : lookup o k = Some v -> set o k v = o.
Proof.
  induction o as [|[k0 v0] o IH]; simpl; [done|].
  destruct (String.eqb_spec k0 k) as [->|Hk].
  - by intros [= ->].
  - intros Hl. by rewrite IH.
Qed.

Lemma keys_set_prefix o k v : keys o `prefix_of` keys (set o k v).
Proof.
  destruct (lookup o k) as [v'|] eqn:Hl.
  - by rewrite (AlistFacts.keys_set_old _ _ _ _ Hl).
  - rewrite (AlistFacts.set_new _ _ _ Hl), AlistFacts.keys_snoc.
    by apply prefix_app_r.
Qed.

Lemma lookup_Some_keys o k v : lookup o k = Some v -> k ∈ keys o.
Proof.
  intros Hl. destruct (decide (k ∈ keys o)) as [|Hn]; [done|].
  apply AlistFacts.lookup_None in Hn. congruence.
Qed.

Lemma elem_of_values o k v : lookup o k = Some v -> v ∈ values o.
Proof.
  intros Hl%AlistFacts.lookup_Some_elem. unfold values.
  change v with (snd (k, v)). by apply list_elem_of_fmap_2.
Qed.

End Facts.
End AlistMore.

(** ** Header canonicalizer, continued *)

Section CanonicalizerMore.
Context {HS : JsStringOps}.

Lemma mapping_masters_fixed :
  Forall (fun e => getMasterKey (fst e) = fst e) mapping.
Proof.
  unfold mapping.
  repeat (apply List.Forall_cons;
          [cbn [fst]; rewrite (@getMasterKey_on_ascii HS) by reflexivity;
           vm_compute; reflexivity|]).
  apply List.Forall_nil.
Qed.

(** What the canonicalizer returns, it returns for itself. *)
Lemma getMasterKey_result_fixed (h : string) :
  getMasterKey (getMasterKey h) = getMasterKey h.
Proof.
  destruct (getMasterKey_with_cases mapping h)
    as [(pre & m & cs & post & Htab & _ & _ & Hres)|[_ Hres]];
    fold (getMasterKey h) in Hres; rewrite Hres; [|done].
  pose proof mapping_masters_fixed as Hfix. rewrite Forall_forall in Hfix.
  apply (Hfix (m, cs)). rewrite Htab. apply elem_of_app. right.
  apply list_elem_of_here.
Qed.

(** X1: canonicalizing twice is canonicalizing once: every canonical field
    name is mapped to itself, and an unrecognised header is returned as it
    is. *)
Theorem getMasterKey_idempotent (h : string) :
  getMasterKey (getMasterKey h) = getMasterKey h.
Proof.
  destruct (getMasterKey_with_cases mapping h)
    as [(pre & master & candidates & post & Htab & _ & _ & Hres)|[_ Hres]];
    fold (getMasterKey h) in Hres; rewrite Hres.
  - assert ((master, candidates) ∈ mapping) as Hin.
    { rewrite Htab. apply elem_of_app. right. apply list_elem_of_here. }
    pose proof mapping_masters_fixed as Hfix. rewrite Forall_forall in Hfix.
    apply (Hfix _ Hin).
  - exact Hres.
Qed.

Lemma getMasterKey_loop_clean table c r1 r2 :
  getMasterKey_loop table c r1 = getMasterKey_loop table c r2
  \/ (getMasterKey_loop table c r1 = r1 /\ getMasterKey_loop table c r2 = r2).
Proof.
  induction table as [|[m cs] table IH]; simpl.
  - by right.
  - destruct (some_matches cs c); [by left | done].
Qed.

(** X2: recognition does not depend on letter case or on surrounding white
    space: two headers that are equal after [toLowerCase] and [trim] are
    either mapped to the same field, or both returned unchanged. *)
Theorem getMasterKey_case_space_insensitive (h1 h2 : string) :
  clean h1 = clean h2 ->
  getMasterKey h1 = getMasterKey h2
  \/ (getMasterKey h1 = h1 /\ getMasterKey h2 = h2).
Proof.
  intros Heq. unfold getMasterKey, getMasterKey_with. rewrite Heq.
  apply getMasterKey_loop_clean.
Qed.

End CanonicalizerMore.

(** ** Row mapper, continued *)

Section RowMapperMore.
Context {num : Type} {HN : JsNumber num} {HS : JsStringOps}.
Implicit Types (row o : obj num) (k h : string).

Lemma keys_mapRow_fold row hs (acc : obj num) k :
  k ∈ Alist.keys
        (fold_left
           (fun m h => Alist.set m (getMasterKey h) (obj_get row h)) hs acc)
  <-> k ∈ Alist.keys acc \/ exists h, h ∈ hs /\ getMasterKey h = k.
Proof.
  revert acc. induction hs as [|h0 hs IH]; intros acc; simpl.
  - split; [by left|]. intros [?|(h & Hin & _)]; [done|].
    by apply elem_of_nil in Hin.
  - rewrite IH, AlistMore.elem_of_keys_set. split.
    + intros [[->|Hacc]|(h & Hin & Hh)].
      * right. exists h0. split; [apply list_elem_of_here | done].
      * by left.
      * right. exists h. split; [by apply list_elem_of_further | done].
    + intros [Hacc|(h & Hin & Hh)].
      * left. by right.
      * apply elem_of_cons in Hin as [->|Hin].
        -- left. by left.
        -- right. by exists h.
Qed.

(** X3: the fields of a mapped record are exactly the master keys of the
    headers of the raw row: no header is dropped and no field is made up. *)
Theorem mapRow_fields row k :
  k ∈ Alist.keys (mapRow row)
  <-> exists h, h ∈ Alist.keys row /\ getMasterKey h = k.
Proof.
  unfold mapRow. rewrite keys_mapRow_fold. split.
  - intros [Hnil|Hex]; [|done]. by apply elem_of_nil in Hnil.
  - intros Hex. by right.
Qed.

Lemma keys_rename (entries : obj num) :
  Alist.keys (map rename_entry entries)
  = map getMasterKey (Alist.keys entries).
Proof.
  unfold Alist.keys. induction entries as [|[h v] entries IH]; simpl; [done|].
  by rewrite IH.
Qed.

(** While no two headers collide, the loop of the row mapper appends. *)
Lemma mapRow_entries_fresh (entries acc : obj num) :
  NoDup (Alist.keys acc ++ map getMasterKey (Alist.keys entries)) ->
  mapRow_entries entries acc = acc ++ map rename_entry entries.
Proof.
  revert acc. induction entries as [|[h v] entries IH]; intros acc Hnd.
  - simpl. by rewrite app_nil_r.
  - unfold mapRow_entries in *. cbn [fold_left map Alist.keys fst] in *.
    assert (Alist.lookup acc (getMasterKey h) = None) as Hnew.
    { apply AlistFacts.lookup_None. apply NoDup_app in Hnd as (_ & Hdis & _).
      intros Hin. apply (Hdis _ Hin). apply list_elem_of_here. }
    rewrite (AlistFacts.set_new _ _ _ Hnew), IH.
    + by rewrite <- app_assoc.
    + rewrite AlistFacts.keys_snoc, <- app_assoc. exact Hnd.
Qed.

(** X4: when no two headers of a raw row have the same master key, the
    row mapper renames the headers in place: order and values are kept. *)
Theorem mapRow_renames_in_place row :
  NoDup (map getMasterKey (Alist.keys row)) ->
  mapRow row = map rename_entry row.
Proof.
  intros Hnd. rewrite mapRow_as_entries.
  - by rewrite mapRow_entries_fresh.
  - by apply (NoDup_fmap_1 getMasterKey).
Qed.

Lemma mapRow_canonical row : canonical_obj (mapRow row).
Proof.
  split; [apply NoDup_keys_mapRow|].
  apply Forall_forall. intros k Hk.
  apply keys_mapRow_fold in Hk as [Hnil|(h & _ & <-)].
  - by apply elem_of_nil in Hnil.
  - apply getMasterKey_result_fixed.
Qed.

Lemma map_fixed {A} (f : A -> A) (l : list A) :
  Forall (fun x => f x = x) l -> map f l = l.
Proof. induction 1 as [|x l Hx Hl IH]; simpl; [done|]. by rewrite Hx, IH. Qed.

(** A record with unique canonical keys is mapped to itself. *)
Lemma mapRow_fixed o : canonical_obj o -> mapRow o = o.
Proof.
  intros [Hnd Hfix].
  rewrite (mapRow_as_entries o Hnd), mapRow_entries_fresh.
  - simpl. apply map_fixed. unfold Alist.keys in Hfix.
    rewrite Forall_fmap in Hfix. eapply Forall_impl; [exact Hfix|].
    intros [k v] Hk. simpl in *. unfold rename_entry. simpl. by rewrite Hk.
  - simpl. by rewrite (map_fixed _ _ Hfix).
Qed.

(** X5: mapping a mapped record changes nothing. *)
Theorem mapRow_idempotent row : mapRow (mapRow row) = mapRow row.
Proof. apply mapRow_fixed, mapRow_canonical. Qed.

End RowMapperMore.

(** ** Merge-fill, continued *)

Section MergeFillMore.
Context {num : Type} {HN : JsNumber num} {HS : JsStringOps}.
Implicit Types (existing mappedRow e m o : obj num) (k : string).

Lemma fills_blank e m k :
  fills e m k = blank (obj_get e k) && negb (blank (obj_get m k)).
Proof. unfold fills, blank. by rewrite negb_orb. Qed.

Lemma blank_undefined : blank (VUndefined : value num) = true.
Proof. done. Qed.

(** A read of the merged record: only a field of the incoming record can
    have been filled. *)
Lemma obj_get_merge_fill e m k :
  obj_get (merge_fill e m) k
  = if bool_decide (k ∈ Alist.keys m) && fills e m k
    then obj_get m k else obj_get e k.
Proof.
  unfold obj_get at 1. rewrite merge_fill_lookup.
  by destruct (bool_decide (k ∈ Alist.keys m) && fills e m k).
Qed.

(** A non-blank field of the resident is kept. *)
Lemma merge_fill_keeps_nonblank e m k :
  blank (obj_get e k) = false ->
  obj_get (merge_fill e m) k = obj_get e k.
Proof.
  intros Hb. rewrite obj_get_merge_fill, fills_blank, Hb.
  by rewrite andb_false_r.
Qed.

(** After the merge the resident is non-blank wherever the incoming record
    is. *)
Lemma merge_fill_covers e m k :
  k ∈ Alist.keys m ->
  blank (obj_get m k) = false -> blank (obj_get (merge_fill e m) k) = false.
Proof.
  intros Hk Hm. rewrite obj_get_merge_fill, fills_blank, Hm.
  rewrite (bool_decide_eq_true_2 _ Hk). simpl.
  rewrite andb_true_r. by destruct (blank (obj_get e k)) eqn:He.
Qed.

Lemma merge_fill_fold_noop m ks e :
  (forall k, k ∈ ks -> fills e m k = false) ->
  fold_left (merge_fill_step m) ks e = e.
Proof.
  induction ks as [|a ks IH]; intros Hno; [done|]. simpl.
  unfold merge_fill_step at 2.
  rewrite (Hno a (list_elem_of_here _ _)). apply IH.
  intros k Hk. apply Hno. by apply list_elem_of_further.
Qed.

(** A record that has nothing to give leaves the resident as it is. *)
Lemma merge_fill_noop e m :
  (forall k, k ∈ Alist.keys m ->
             blank (obj_get m k) = false -> blank (obj_get e k) = false) ->
  merge_fill e m = e.
Proof.
  intros Hcov. apply merge_fill_fold_noop. intros k Hk.
  rewrite fills_blank. destruct (blank (obj_get m k)) eqn:Hm.
  - by rewrite andb_false_r.
  - by rewrite (Hcov k Hk Hm).
Qed.

Lemma merge_fill_fold_keys m ks e :
  Alist.keys e `prefix_of` Alist.keys (fold_left (merge_fill_step m) ks e)
  /\ forall k, k ∈ Alist.keys (fold_left (merge_fill_step m) ks e) ->
               k ∈ Alist.keys e \/ k ∈ ks.
Proof.
  revert e. induction ks as [|a ks IH]; intros e; simpl.
  - split; [done|]. intros k Hk. by left.
  - destruct (IH (merge_fill_step m e a)) as [Hpre Hin].
    assert (Alist.keys e `prefix_of` Alist.keys (merge_fill_step m e a)) as Hstep.
    { unfold merge_fill_step. destruct (fills e m a); [|done].
      apply AlistMore.keys_set_prefix. }
    split; [by etrans|].
    intros k Hk. destruct (Hin k Hk) as [Hk'|Hk'].
    + unfold merge_fill_step in Hk'. destruct (fills e m a).
      * apply AlistMore.elem_of_keys_set in Hk' as [->|Hk'].
        -- right. apply list_elem_of_here.
        -- by left.
      * by left.
    + right. by apply list_elem_of_further.
Qed.

Lemma merge_fill_fold_NoDup m ks e :
  NoDup (Alist.keys e) ->
  NoDup (Alist.keys (fold_left (merge_fill_step m) ks e)).
Proof.
  revert e. induction ks as [|a ks IH]; intros e Hnd; [done|]. simpl.
  apply IH. unfold merge_fill_step. destruct (fills e m a); [|done].
  by apply AlistFacts.NoDup_keys_set.
Qed.

Lemma merge_fill_canonical e m :
  canonical_obj e -> canonical_obj m -> canonical_obj (merge_fill e m).
Proof.
  intros [Hnd He] [_ Hm]. split.
  - by apply merge_fill_fold_NoDup.
  - apply Forall_forall. intros k Hk.
    apply merge_fill_fold_keys in Hk as [Hk|Hk].
    + rewrite Forall_forall in He. by apply He.
    + rewrite Forall_forall in Hm. by apply Hm.
Qed.

(** X6: merge-fill never removes a field of the resident record, and the
    fields of the result are fields of the resident or of the incoming
    record. *)
Theorem merge_fill_keeps_fields existing mappedRow :
  (forall k, k ∈ Alist.keys existing ->
             k ∈ Alist.keys (merge_fill existing mappedRow))
  /\ forall k, k ∈ Alist.keys (merge_fill existing mappedRow) ->
               k ∈ Alist.keys existing \/ k ∈ Alist.keys mappedRow.
Proof.
  destruct (merge_fill_fold_keys mappedRow (Alist.keys mappedRow) existing)
    as [[rest Hrest] Hin].
  split; [|exact Hin].
  intros k Hk. unfold merge_fill. rewrite Hrest. apply elem_of_app. by left.
Qed.

(** X7: merging the same record a second time changes nothing. *)
Theorem merge_fill_absorbs existing mappedRow :
  merge_fill (merge_fill existing mappedRow) mappedRow
  = merge_fill existing mappedRow.
Proof. apply merge_fill_noop. intros k Hk. by apply merge_fill_covers. Qed.

End MergeFillMore.

(** ** Merge engine, continued *)

Section EngineMore.
Context {num : Type} {HN : JsNumber num} {HS : JsStringOps}.
Implicit Types (st : State num) (row r : obj num) (data : list (obj num))
  (key k : string).

(** A row with an identity touches the [Map] at its key only. *)
Lemma process_row_keyed st row key :
  identityKey (mapRow row) = Some key ->
  process_row st row
  = {| uniqueMap :=
         Alist.set (uniqueMap st) key
           (match Alist.lookup (uniqueMap st) key with
            | Some existing => merge_fill existing (mapRow row)
            | None => mapRow row
            end);
       nonMpnRows := nonMpnRows st |}.
Proof.
  intros Hid. destruct (Alist.lookup (uniqueMap st) key) as [e|] eqn:Hl.
  - by apply process_row_seen.
  - rewrite (process_row_new _ _ _ Hid Hl).
    by rewrite (AlistFacts.set_new _ _ _ Hl).
Qed.

Lemma process_row_lookup_other st row key :
  identityKey (mapRow row) <> Some key ->
  Alist.lookup (uniqueMap (process_row st row)) key
  = Alist.lookup (uniqueMap st) key.
Proof.
  intros Hne. destruct (identityKey (mapRow row)) as [key'|] eqn:Hid.
  - rewrite (process_row_keyed _ _ _ Hid). simpl.
    apply AlistFacts.lookup_set_ne. congruence.
  - by rewrite (process_row_no_identity _ _ Hid).
Qed.

Lemma process_row_lookup_same st row key :
  identityKey (mapRow row) = Some key ->
  Alist.lookup (uniqueMap (process_row st row)) key
  = Some (match Alist.lookup (uniqueMap st) key with
          | Some existing => merge_fill existing (mapRow row)
          | None => mapRow row
          end).
Proof.
  intros Hid. rewrite (process_row_keyed _ _ _ Hid). simpl.
  apply AlistFacts.lookup_set_eq.
Qed.

(** A resident stays resident, and its non-blank fields stay what they
    are. *)
Lemma process_row_resident st row key e :
  Alist.lookup (uniqueMap st) key = Some e ->
  exists e',
    Alist.lookup (uniqueMap (process_row st row)) key = Some e'
    /\ forall k, blank (obj_get e k) = false -> obj_get e' k = obj_get e k.
Proof.
  intros Hl.
  destruct (decide (identityKey (mapRow row) = Some key)) as [Hid|Hne].
  - exists (merge_fill e (mapRow row)). split.
    + by rewrite (process_row_lookup_same _ _ _ Hid), Hl.
    + intros k. apply merge_fill_keeps_nonblank.
  - exists e. split; [|done].
    by rewrite (process_row_lookup_other _ _ _ Hne).
Qed.

Lemma process_rows_resident st data key e :
  Alist.lookup (uniqueMap st) key = Some e ->
  exists e',
    Alist.lookup (uniqueMap (process_rows st data)) key = Some e'
    /\ forall k, blank (obj_get e k) = false -> obj_get e' k = obj_get e k.
Proof.
  revert st e. induction data as [|row data IH]; intros st e Hl.
  - by exists e.
  - destruct (process_row_resident st row key e Hl) as (e1 & Hl1 & Hk1).
    destruct (IH _ _ Hl1) as (e2 & Hl2 & Hk2).
    exists e2. split; [exact Hl2|].
    intros k Hb. rewrite Hk2; [by apply Hk1|]. by rewrite (Hk1 k Hb).
Qed.

(** While the rows of a key are blank at a field, so is its resident. *)
Lemma process_rows_still_blank st data key k :
  (forall r, r ∈ data -> identityKey (mapRow r) = Some key ->
             blank (obj_get (mapRow r) k) = true) ->
  match Alist.lookup (uniqueMap st) key with
  | Some e => blank (obj_get e k) = true
  | None => True
  end ->
  match Alist.lookup (uniqueMap (process_rows st data)) key with
  | Some e => blank (obj_get e k) = true
  | None => True
  end.
Proof.
  revert st. induction data as [|row data IH]; intros st Hrows Hst; [done|].
  unfold process_rows in *. cbn [fold_left]. apply IH.
  - intros r Hr. apply Hrows. by apply list_elem_of_further.
  - destruct (decide (identityKey (mapRow row) = Some key)) as [Hid|Hne].
    + rewrite (process_row_lookup_same _ _ _ Hid).
      pose proof (Hrows row (list_elem_of_here _ _) Hid) as Hb.
      destruct (Alist.lookup (uniqueMap st) key) as [e|]; [|done].
      rewrite obj_get_merge_fill, fills_blank, Hb.
      by rewrite !andb_false_r.
    + by rewrite (process_row_lookup_other _ _ _ Hne).
Qed.

Lemma resident_in_normalized data key e :
  Alist.lookup (uniqueMap (process_rows init data)) key = Some e ->
  e ∈ normalized (normalizeData data) /\ identityKey e = Some key.
Proof.
  intros Hl. split.
  - rewrite normalized_normalizeData. apply elem_of_app. left.
    by apply (AlistMore.elem_of_values _ key).
  - assert (residents_keyed (uniqueMap (process_rows init data))) as Hinv
      by (apply process_rows_residents_keyed; constructor).
    unfold residents_keyed in Hinv. rewrite Forall_forall in Hinv.
    apply (Hinv (key, e)). by apply AlistFacts.lookup_Some_elem.
Qed.

(** X8: across the whole batch the first non-blank value wins: if a row
    with an identity key has a field with a value that is neither undefined
    nor the empty string, and every earlier row with the same key reads as
    undefined or the empty string at that field (as an absent field does,
    unless it is named like a member of [Object.prototype]), then the
    output record of that key holds that value at the field, whatever comes
    later. *)
Theorem first_nonblank_value_wins data1 row data2 key k v :
  identityKey (mapRow row) = Some key ->
  Alist.lookup (mapRow row) k = Some v ->
  blank v = false ->
  (forall r, r ∈ data1 -> identityKey (mapRow r) = Some key ->
             blank (obj_get (mapRow r) k) = true) ->
  exists resident,
    resident ∈ normalized (normalizeData (data1 ++ row :: data2))
    /\ identityKey resident = Some key
    /\ obj_get resident k = v.
Proof.
  intros Hid Hown Hbv Hpre.
  assert (obj_get (mapRow row) k = v) as Hget
    by (unfold obj_get; by rewrite Hown).
  assert (blank (obj_get (mapRow row) k) = false) as Hnb by (by rewrite Hget).
  assert (k ∈ Alist.keys (mapRow row)) as Hk
    by (by apply (AlistMore.lookup_Some_keys _ _ v)).
  pose proof (process_rows_still_blank init data1 key k Hpre I) as Hblank.
  set (st1 := process_rows init data1) in *.
  assert (exists e1,
             Alist.lookup (uniqueMap (process_row st1 row)) key = Some e1
             /\ obj_get e1 k = obj_get (mapRow row) k) as (e1 & Hl1 & Hk1).
  { rewrite (process_row_lookup_same _ _ _ Hid).
    destruct (Alist.lookup (uniqueMap st1) key) as [e|]; eexists; (split; [done|]).
    - rewrite obj_get_merge_fill, fills_blank, Hblank, Hnb.
      by rewrite (bool_decide_eq_true_2 _ Hk).
    - done. }
  destruct (process_rows_resident _ data2 _ _ Hl1) as (e2 & Hl2 & Hk2).
  exists e2.
  assert (process_rows init (data1 ++ row :: data2)
          = process_rows (process_row st1 row) data2) as Hrun.
  { unfold process_rows, st1. by rewrite fold_left_app. }
  rewrite <- Hrun in Hl2.
  destruct (resident_in_normalized _ _ _ Hl2) as [Hin Hkey].
  split; [done|]. split; [done|].
  rewrite Hk2; [by rewrite Hk1|]. by rewrite Hk1.
Qed.

Lemma covers_process_row st row key m :
  covers (uniqueMap st) key m -> covers (uniqueMap (process_row st row)) key m.
Proof.
  intros (e & Hl & Hcov).
  destruct (process_row_resident st row key e Hl) as (e' & Hl' & Hk').
  exists e'. split; [done|]. intros k Hk Hm.
  rewrite Hk'; by apply Hcov.
Qed.

Lemma covers_process_rows st data key m :
  covers (uniqueMap st) key m -> covers (uniqueMap (process_rows st data)) key m.
Proof.
  revert st. induction data as [|row data IH]; intros st Hc; [done|].
  unfold process_rows in *. cbn [fold_left]. by apply IH, covers_process_row.
Qed.

(** Once processed, a row with an identity is covered by its resident. *)
Lemma process_row_covers st row key :
  identityKey (mapRow row) = Some key ->
  covers (uniqueMap (process_row st row)) key (mapRow row).
Proof.
  intros Hid. eexists. split; [by apply process_row_lookup_same|].
  intros k Hk Hm. destruct (Alist.lookup (uniqueMap st) key) as [e|]; [|done].
  by apply merge_fill_covers.
Qed.

(** A covered row changes nothing. *)
Lemma process_row_covered st row key :
  identityKey (mapRow row) = Some key ->
  covers (uniqueMap st) key (mapRow row) ->
  process_row st row = st.
Proof.
  intros Hid (e & Hl & Hcov).
  rewrite (process_row_seen _ _ _ _ Hid Hl), (merge_fill_noop _ _ Hcov).
  rewrite (AlistMore.set_same _ _ _ Hl). by destruct st.
Qed.

(** X9: a row with an identity that occurs again later in the batch is
    absorbed: the output records are those of the batch without the
    second occurrence. *)
Theorem repeated_row_is_absorbed data1 row data2 data3 key :
  identityKey (mapRow row) = Some key ->
  normalized (normalizeData (data1 ++ row :: data2 ++ row :: data3))
  = normalized (normalizeData (data1 ++ row :: data2 ++ data3)).
Proof.
  intros Hid. rewrite !normalized_normalizeData.
  assert (process_rows init (data1 ++ row :: data2 ++ row :: data3)
          = process_rows init (data1 ++ row :: data2 ++ data3)) as ->; [|done].
  unfold process_rows. rewrite !fold_left_app. cbn [fold_left].
  rewrite !fold_left_app. cbn [fold_left]. f_equal.
  apply (process_row_covered _ _ key Hid).
  apply (covers_process_rows _ data2), process_row_covers, Hid.
Qed.

Lemma process_rows_covers st data row key :
  row ∈ data ->
  identityKey (mapRow row) = Some key ->
  covers (uniqueMap (process_rows st data)) key (mapRow row).
Proof.
  revert st. induction data as [|r data IH]; intros st Hin Hid.
  - by apply elem_of_nil in Hin.
  - unfold process_rows in *. cbn [fold_left].
    apply elem_of_cons in Hin as [->|Hin].
    + apply (covers_process_rows _ data). by apply process_row_covers.
    + by apply IH.
Qed.

Lemma process_rows_all_covered st data :
  (forall row key, row ∈ data -> identityKey (mapRow row) = Some key ->
                   covers (uniqueMap st) key (mapRow row)) ->
  process_rows st data
  = {| uniqueMap := uniqueMap st;
       nonMpnRows := nonMpnRows st ++ no_identity_rows data |}.
Proof.
  revert st. induction data as [|row data IH]; intros st Hcov.
  - simpl. rewrite app_nil_r. by destruct st.
  - unfold process_rows in *. cbn [fold_left]. rewrite no_identity_rows_cons.
    destruct (identityKey (mapRow row)) as [key|] eqn:Hid.
    + rewrite (process_row_covered _ _ key Hid).
      * apply IH. intros r key' Hr. apply Hcov. by apply list_elem_of_further.
      * apply Hcov; [apply list_elem_of_here | done].
    + rewrite (process_row_no_identity _ _ Hid), IH.
      * simpl. by rewrite <- app_assoc.
      * simpl. intros r key' Hr. apply Hcov. by apply list_elem_of_further.
Qed.

(** X10: processing a batch twice over (the same files added again) gives
    the records of the batch, followed once more by its records without
    identity: no record with an identity is changed or added. *)
Theorem batch_twice data :
  normalized (normalizeData (data ++ data))
  = normalized (normalizeData data) ++ no_identity_rows data.
Proof.
  rewrite !normalized_normalizeData.
  assert (process_rows init (data ++ data)
          = process_rows (process_rows init data) data) as ->
    by (unfold process_rows; by rewrite fold_left_app).
  rewrite process_rows_all_covered.
  - simpl. by rewrite app_assoc.
  - intros row key. apply process_rows_covers.
Qed.

End EngineMore.

(** ** Counts *)

Section Counts.
Context {num : Type} {HN : JsNumber num} {HS : JsStringOps}.
Implicit Types (st : State num) (row r : obj num) (data : list (obj num)).

Lemma keys_of_run data :
  Alist.keys (uniqueMap (process_rows init data))
  = first_occurrences (keyed_keys data).
Proof. rewrite process_rows_keys. simpl. apply filter_unseen_nil. Qed.

Lemma length_normalized data :
  length (normalized (normalizeData data))
  = length (first_occurrences (keyed_keys data))
    + length (no_identity_rows data).
Proof.
  rewrite normalized_normalizeData, length_app, process_rows_nonMpnRows.
  simpl. f_equal. unfold Alist.values. rewrite length_map.
  rewrite <- (length_map fst).
  fold (Alist.keys (uniqueMap (process_rows init data))).
  by rewrite keys_of_run.
Qed.



(** X11: the output is empty only for the empty input: every input row
    either starts or joins a record with an identity, or is kept as it
    is. *)
Theorem normalized_empty_iff data :
  normalized (normalizeData data) = [] <-> data = [].
Proof.
  split; [|by intros ->].
  intros Hout. apply (f_equal (@length _)) in Hout.
  rewrite length_normalized in Hout. simpl in Hout.
  destruct data as [|row data]; [done|]. exfalso.
  rewrite keyed_keys_cons, no_identity_rows_cons in Hout.
  destruct (identityKey (mapRow row)); simpl in Hout; lia.
Qed.


Lemma length_remove_dups_Permutation (l l' : list string) :
  l ≡ₚ l' -> length (remove_dups l) = length (remove_dups l').
Proof.
  intros Hp. apply Permutation_length, NoDup_Permutation.
  - apply NoDup_remove_dups.
  - apply NoDup_remove_dups.
  - intros x. rewrite !elem_of_remove_dups. by rewrite Hp.
Qed.

Lemma length_normalized_Permutation data data' :
  data ≡ₚ data' ->
  length (normalized (normalizeData data))
  = length (normalized (normalizeData data')).
Proof.
  intros Hp. rewrite !length_normalized, !length_first_occurrences. f_equal.
  - apply length_remove_dups_Permutation. unfold keyed_keys. by rewrite Hp.
  - apply Permutation_length. unfold no_identity_rows.
    apply filter_Permutation.
    change (mapRow <$> data ≡ₚ mapRow <$> data'). by rewrite Hp.
Qed.

(** X13: the statistics do not depend on the order of the input rows
    (which records merge into which does). *)
Theorem stats_order_independent data data' :
  data ≡ₚ data' -> stats (normalizeData data) = stats (normalizeData data').
Proof.
  intros Hp.
  pose proof (length_normalized_Permutation _ _ Hp) as Hn.
  pose proof (Permutation_length Hp) as Hl.
  destruct data as [|row data], data' as [|row' data']; [done|done|done|].
  unfold normalizeData in *. cbn [stats normalized] in *.
  by rewrite Hn, Hl.
Qed.

End Counts.

(** ** Normalizing the normalized output *)

Section Idempotence.
Context {num : Type} {HN : JsNumber num} {HS : JsStringOps}.
Implicit Types (st : State num) (row r : obj num) (data : list (obj num)).

Lemma process_row_canonical st row :
  Forall canonical_obj (Alist.values (uniqueMap st)) ->
  Forall canonical_obj (nonMpnRows st) ->
  Forall canonical_obj (Alist.values (uniqueMap (process_row st row)))
  /\ Forall canonical_obj (nonMpnRows (process_row st row)).
Proof.
  intros Hum Hnm. pose proof (mapRow_canonical row) as Hm.
  destruct (identityKey (mapRow row)) as [key|] eqn:Hid.
  - destruct (Alist.lookup (uniqueMap st) key) as [e|] eqn:Hl.
    + rewrite (process_row_seen _ _ _ _ Hid Hl). simpl. split; [|done].
      unfold Alist.values in *. rewrite Forall_fmap in *.
      apply AlistFacts.Forall_set; [done|]. simpl.
      apply merge_fill_canonical; [|done].
      rewrite Forall_forall in Hum.
      apply (Hum (key, e)). by apply AlistFacts.lookup_Some_elem.
    + rewrite (process_row_new _ _ _ Hid Hl). simpl. split; [|done].
      unfold Alist.values in *. rewrite map_app. apply Forall_app.
      split; [done|]. by constructor.
  - rewrite (process_row_no_identity _ _ Hid). simpl. split; [done|].
    apply Forall_app. split; [done|]. by constructor.
Qed.

Lemma process_rows_canonical st data :
  Forall canonical_obj (Alist.values (uniqueMap st)) ->
  Forall canonical_obj (nonMpnRows st) ->
  Forall canonical_obj (Alist.values (uniqueMap (process_rows st data)))
  /\ Forall canonical_obj (nonMpnRows (process_rows st data)).
Proof.
  revert st. induction data as [|row data IH]; intros st Hum Hnm; [done|].
  unfold process_rows in *. cbn [fold_left].
  destruct (process_row_canonical st row Hum Hnm) as [Hum' Hnm'].
  by apply IH.
Qed.

(** Feeding the residents of a [Map] back in, in order, rebuilds it. *)
Lemma replay_residents (um' um : Alist.alist (obj num)) (nm : list (obj num)) :
  NoDup (Alist.keys (um' ++ um)) ->
  residents_keyed um ->
  Forall canonical_obj (Alist.values um) ->
  process_rows {| uniqueMap := um'; nonMpnRows := nm |} (Alist.values um)
  = {| uniqueMap := um' ++ um; nonMpnRows := nm |}.
Proof.
  revert um'. induction um as [|[key r] um IH]; intros um' Hnd Hkeyed Hcan.
  - simpl. by rewrite app_nil_r.
  - apply Forall_cons in Hkeyed as [Hid Hkeyed].
    apply Forall_cons in Hcan as [Hr Hcan]. simpl in Hid, Hr.
    unfold process_rows in *. cbn [Alist.values map fold_left snd].
    assert (identityKey (mapRow r) = Some key) as Hid'
      by (by rewrite (mapRow_fixed r Hr)).
    assert (Alist.lookup um' key = None) as Hnew.
    { apply AlistFacts.lookup_None. intros Hin.
      unfold Alist.keys in Hnd. rewrite map_app in Hnd.
      apply NoDup_app in Hnd as (_ & Hdis & _).
      apply (Hdis key Hin). apply list_elem_of_here. }
    rewrite (process_row_new {| uniqueMap := um'; nonMpnRows := nm |} r key
               Hid' Hnew). simpl.
    rewrite (mapRow_fixed r Hr).
    change (map snd um) with (Alist.values um). rewrite IH; [|by rewrite <- app_assoc|done..].
    by rewrite <- app_assoc.
Qed.

Lemma replay_unkeyed st (rows : list (obj num)) :
  Forall canonical_obj rows ->
  Forall (fun r => has_identity r = false) rows ->
  process_rows st rows
  = {| uniqueMap := uniqueMap st; nonMpnRows := nonMpnRows st ++ rows |}.
Proof.
  revert st. induction rows as [|r rows IH]; intros st Hcan Hno.
  - simpl. rewrite app_nil_r. by destruct st.
  - apply Forall_cons in Hcan as [Hr Hcan].
    apply Forall_cons in Hno as [Hnr Hno].
    unfold process_rows in *. cbn [fold_left].
    assert (identityKey (mapRow r) = None) as Hid.
    { rewrite (mapRow_fixed r Hr). by apply identityKey_has_identity. }
    rewrite (process_row_no_identity _ _ Hid), IH by done.
    simpl. by rewrite (mapRow_fixed r Hr), <- app_assoc.
Qed.

Lemma process_rows_app st data1 data2 :
  process_rows st (data1 ++ data2)
  = process_rows (process_rows st data1) data2.
Proof. unfold process_rows. apply fold_left_app. Qed.

Lemma normalizeData_replay data :
  process_rows init (normalized (normalizeData data))
  = process_rows init data.
Proof.
  rewrite normalized_normalizeData.
  destruct (process_rows_canonical init data) as [Hum Hnm];
    [constructor | constructor |].
  assert (residents_keyed (uniqueMap (process_rows init data))) as Hkeyed
    by (apply process_rows_residents_keyed; constructor).
  assert (NoDup (Alist.keys (uniqueMap (process_rows init data)))) as Hnd
    by (rewrite keys_of_run; apply NoDup_first_occurrences).
  rewrite process_rows_app.
  pose proof (replay_residents [] _ [] Hnd Hkeyed Hum) as Hre.
  change {| uniqueMap := []; nonMpnRows := [] |} with (@init num) in Hre.
  rewrite Hre, replay_unkeyed.
  - simpl. by destruct (process_rows init data).
  - done.
  - rewrite process_rows_nonMpnRows. simpl. unfold no_identity_rows.
    apply Forall_forall. intros r Hr.
    by apply list_elem_of_filter in Hr as [? _].
Qed.

(** X14: normalizing is idempotent: the normalized output, given back as
    input, comes out as it is, and nothing is merged. *)
Theorem normalizeData_idempotent data :
  normalized (normalizeData (normalized (normalizeData data)))
  = normalized (normalizeData data)
  /\ (data <> [] ->
      stats (normalizeData (normalized (normalizeData data)))
      = Some {| merged := 0;
                total := Z.of_nat (length (normalized (normalizeData data)));
                original := Z.of_nat (length (normalized (normalizeData data))) |}).
Proof.
  assert (normalized (normalizeData (normalized (normalizeData data)))
          = normalized (normalizeData data)) as Hout.
  { rewrite (normalized_normalizeData (normalized _)), normalizeData_replay.
    by rewrite normalized_normalizeData. }
  split; [done|]. intros Hne.
  destruct (normalized (normalizeData data)) as [|r out] eqn:Hn.
  - apply (f_equal (@length _)) in Hn. rewrite length_normalized in Hn.
    destruct data as [|row data]; [done|]. exfalso.
    rewrite keyed_keys_cons, no_identity_rows_cons in Hn.
    destruct (identityKey (mapRow row)); simpl in Hn; lia.
  - unfold normalizeData at 1. cbn [stats].
    change (Alist.values (uniqueMap (process_rows init (r :: out)))
            ++ nonMpnRows (process_rows init (r :: out)))
      with (normalized (normalizeData (r :: out))).
    rewrite Hout. f_equal. f_equal. lia.
Qed.

End Idempotence.

(** ** Condensed projector, continued *)

Section ProjectorMore.
Context {num : Type} {HN : JsNumber num} {HS : JsStringOps}.
Implicit Types (row r : obj num) (v : value num).

Lemma js_or_display_cell v : display_cell (js_or v (VStr "")).
Proof.
  unfold display_cell, js_or. destruct (truthy v) eqn:Ht; [by left | by right].
Qed.

Lemma js_or_empty_twice v :
  js_or (js_or v (VStr "")) (VStr "") = js_or v (VStr "").
Proof. unfold js_or. destruct (truthy v) eqn:Ht; [by rewrite Ht | done]. Qed.

(** X15: every record of the condensed export has exactly the nine display
    columns, in the same order, and every cell is either a truthy value or
    the empty string: never undefined, null, false or a zero. *)
Theorem condensed_records_uniform (data : list (obj num)) r :
  r ∈ generateCondensedData data ->
  Alist.keys r = display_columns
  /\ Forall (fun e => display_cell (snd e)) r.
Proof.
  unfold generateCondensedData. intros (row & -> & _)%list_elem_of_fmap.
  rewrite condense_row_columns. split; [reflexivity|].
  repeat (apply List.Forall_cons; [apply js_or_display_cell|]).
  apply List.Forall_nil.
Qed.

(** A display column holds the value of its canonical field when that
    value is truthy, and the empty string in every other case. *)
Lemma condensed_cell_value row field display :
  (field, display) ∈ importantMap ->
  Alist.lookup (condense_row row) display
  = Some (if truthy (obj_get row field) then obj_get row field else VStr "").
Proof.
  intros Hin. rewrite condense_row_columns. unfold importantMap in Hin.
  repeat (apply elem_of_cons in Hin as [[= -> ->]|Hin]; [reflexivity|]).
  by apply elem_of_nil in Hin.
Qed.

Lemma condense_row_twice row :
  condense_row (condense_row row)
  = Alist.set (condense_row row) "Min / Mult (MOQ)" (VStr "").
Proof.
  rewrite (condense_row_columns (condense_row row)).
  rewrite (condense_row_columns row).
  unfold obj_get. simpl. by rewrite !js_or_empty_twice.
Qed.

(** X16: the projector applied to its own output keeps eight columns and
    empties ['Min / Mult (MOQ)']: the display name of that column is not
    the name of the field it is read from. *)
Theorem condensed_twice_loses_moq (data : list (obj num)) :
  generateCondensedData (generateCondensedData data)
  = map (fun r => Alist.set r "Min / Mult (MOQ)" (VStr ""))
      (generateCondensedData data).
Proof.
  unfold generateCondensedData. rewrite !map_map.
  apply map_ext. intros row. apply condense_row_twice.
Qed.

End ProjectorMore.

(** ** The page *)

Section StringsMore.
Import JsString.




Lemma has_char_take c n s :
  has_char c s = false -> has_char c (take n s) = false.
Proof.
  revert s. induction n as [|n IH]; intros [|a s]; simpl; try done.
  intros [Ha Hs]%orb_false_iff. by rewrite Ha, IH.
Qed.

Lemma has_char_map_chars c f s :
  (forall a, Ascii.eqb (f a) c = false) -> has_char c (map_chars f s) = false.
Proof.
  intros Hf. induction s as [|a s IH]; simpl; [done|]. by rewrite Hf, IH.
Qed.

Lemma length_take n s : String.length (take n s) <= n.
Proof.
  revert s. induction n as [|n IH]; intros [|a s]; simpl; try lia.
  specialize (IH s). lia.
Qed.

End StringsMore.

Section PageFacts.
Context {num : Type} {HN : JsNumber num} {HS : JsStringOps}
  {HW : App.XlsxWriter num}.
Import App.
Implicit Types (p : Page num) (fs : list (File num)) (now : string).

(** X17: the time stamp put into a download name has no colon and no
    dot, and at most 19 characters, whatever the clock string is. *)
Theorem timestamp_is_name_safe now :
  JsString.has_char ":" (timestamp now) = false
  /\ JsString.has_char "." (timestamp now) = false
  /\ String.length (timestamp now) <= 19.
Proof.
  unfold timestamp. split; [|split].
  - apply has_char_take, has_char_map_chars. intros a.
    destruct (Ascii.eqb a ":") eqn:E1; [done|].
    destruct (Ascii.eqb a ".") eqn:E2; [done|]. done.
  - apply has_char_take, has_char_map_chars. intros a.
    destruct (Ascii.eqb a ":") eqn:E1; [done|].
    destruct (Ascii.eqb a ".") eqn:E2; [done|]. done.
  - apply length_take.
Qed.



(** The reading loops. *)
Lemma read_all_data_ok fs (sheets : list (Sheet num)) allData :
  Forall2 (fun f sh => readFile f = inr sh) fs sheets ->
  read_all_data fs allData = inr (allData ++ List.concat (map data sheets)).
Proof.
  intros Hall. revert allData.
  induction Hall as [|f sh fs sheets Hf Hall IH]; intros allData; simpl.
  - by rewrite app_nil_r.
  - by rewrite Hf, IH, <- app_assoc.
Qed.

Lemma read_all_data_fails fs1 f fs2 msg allData :
  Forall (fun f => exists sh, readFile f = inr sh) fs1 ->
  readFile f = inl msg ->
  read_all_data (fs1 ++ f :: fs2) allData = inl msg.
Proof.
  intros Hok Hf. revert allData.
  induction Hok as [|f1 fs1 [sh Hsh] Hok IH]; intros allData; simpl.
  - by rewrite Hf.
  - by rewrite Hsh, IH.
Qed.

Lemma read_all_headers_ok fs (sheets : list (Sheet num)) allHeaders :
  Forall2 (fun f sh => readFile f = inr sh) fs sheets ->
  read_all_headers fs allHeaders
  = inr (allHeaders ++ List.concat (map headers sheets)).
Proof.
  intros Hall. revert allHeaders.
  induction Hall as [|f sh fs sheets Hf Hall IH]; intros allHeaders; simpl.
  - by rewrite app_nil_r.
  - by rewrite Hf, IH, <- app_assoc.
Qed.

Lemma normalized_nil_inv (data : list (obj num)) :
  normalized (normalizeData data) = [] -> data = [].
Proof.
  intros Hout. apply (f_equal (@length _)) in Hout.
  rewrite length_normalized in Hout. simpl in Hout.
  destruct data as [|row data]; [done|]. exfalso.
  rewrite keyed_keys_cons, no_identity_rows_cons in Hout.
  destruct (identityKey (mapRow row)); simpl in Hout; lia.
Qed.

Lemma length_eqb_0 {A} (l : list A) : Nat.eqb (length l) 0 = false <-> l <> [].
Proof. destruct l; simpl; split; congruence. Qed.

(** X19: when every file is read, a run of [processFiles] with nothing in
    between ends in one of three ways.  With no row in any file it reports
    "No data found to process." and exports nothing.  When the writer
    throws on the rows to export, it reports the writer's message and
    exports nothing.  Otherwise it exports one workbook: the normalized
    records of all rows in file order, or their condensed projection; the
    status is the success line with the counts of the returned statistics
    (the missing statistics of the empty case are never read).  In each
    case no handler is left running and the three buttons are enabled. *)
Theorem processFiles_outcome now (condensed : bool) p (sheets : list (Sheet num)) :
  files p <> [] ->
  Forall2 (fun f sh => readFile f = inr sh) (files p) sheets ->
  let allData := List.concat (map data sheets) in
  let out := normalized (normalizeData allData) in
  let rows := if condensed then generateCondensedData out else out in
  processFiles now condensed p
  = match allData with
    | [] => settled p "Error: No data found to process." "#ef4444" false false []
    | _ =>
        match write_error rows with
        | Some message =>
            settled p ("Error: " ++ message) "#ef4444" false false []
        | None =>
            if condensed then
              settled p
                ("Success! Exported " ++ pretty (length out)
                 ++ " items with important columns only.") "#22c55e" false false
                [Workbook ("condensed_list_" ++ timestamp now ++ ".xlsx") rows]
            else
              settled p
                ("Done! Key: " ++ String "034" "MPN" ++ String "034" ". Saved "
                 ++ pretty (Z.of_nat (length out)) ++ " items (Merged "
                 ++ pretty (Z.of_nat (length allData) - Z.of_nat (length out))%Z
                 ++ ").") "#22c55e" false false
                [Workbook ("master_list_" ++ timestamp now ++ ".xlsx") rows]
        end
    end.
Proof.
  intros Hne Hread allData out rows. unfold processFiles.
  destruct (files p) as [|f fs] eqn:Hfiles; [done|].
  cbn [files begin_processing]. rewrite Hfiles.
  rewrite (read_all_data_ok _ _ [] Hread). cbn [app]. fold allData.
  subst rows out. destruct allData as [|row rest] eqn:Hdata.
  - cbn. unfold settled. rewrite app_nil_r. reflexivity.
  - assert (Nat.eqb (length (normalized (normalizeData (row :: rest)))) 0 = false)
      as Hlen.
    { apply length_eqb_0. intros Hnil. by apply normalized_nil_inv in Hnil. }
    unfold after_reading. rewrite Hlen. unfold exportFile. destruct condensed.
    + destruct (write_error _) as [message|].
      * unfold settled, end_processing, catch_processing, updateStatus.
        cbn [files isProcessing statusText statusColor processBtn_disabled
             condensedBtn_disabled headersBtn_disabled downloads begin_processing].
        by rewrite app_nil_r, Hfiles.
      * unfold settled, end_processing, updateStatus, add_download.
        cbn [files isProcessing statusText statusColor processBtn_disabled
             condensedBtn_disabled headersBtn_disabled downloads begin_processing].
        rewrite Hfiles. unfold generateCondensedData at 1. rewrite length_map.
        reflexivity.
    + destruct (write_error _) as [message|].
      * unfold settled, end_processing, catch_processing, updateStatus.
        cbn [files isProcessing statusText statusColor processBtn_disabled
             condensedBtn_disabled headersBtn_disabled downloads begin_processing].
        by rewrite app_nil_r, Hfiles.
      * unfold settled, end_processing, updateStatus, add_download.
        cbn [files isProcessing statusText statusColor processBtn_disabled
             condensedBtn_disabled headersBtn_disabled downloads begin_processing
             stats normalizeData mpnHeader show_mpnHeader total merged].
        rewrite Hfiles. reflexivity.
Qed.

(** X20: when a file cannot be read, [processFiles] stops at the first
    such file: it reports that file's error, exports nothing and reads no
    further; no handler is left running and the buttons are enabled. *)
Theorem processFiles_read_failure now (condensed : bool) p fs1 f fs2 msg :
  files p = fs1 ++ f :: fs2 ->
  Forall (fun f => exists sh, readFile f = inr sh) fs1 ->
  readFile f = inl msg ->
  processFiles now condensed p
  = settled p ("Error: " ++ msg) "#ef4444" false false [].
Proof.
  intros Hfiles Hok Hf. unfold processFiles.
  destruct (files p) as [|f0 fs0] eqn:Hfp.
  - by destruct fs1.
  - cbn [files begin_processing]. rewrite Hfp, Hfiles.
    rewrite (read_all_data_fails _ _ _ _ _ Hok Hf).
    unfold settled, end_processing, catch_processing, updateStatus.
    cbn [files isProcessing statusText statusColor processBtn_disabled
         condensedBtn_disabled headersBtn_disabled downloads begin_processing].
    by rewrite app_nil_r, Hfp, Hfiles.
Qed.

(** X21: when every file is read, [exportAllHeaders] reports "No headers
    found in selected files." if no file has a header, and otherwise
    exports one text file: the headers of all files in file order,
    repeated ones included, one per line, and reports their number.  The
    two processing buttons are left as they were. *)
Theorem exportAllHeaders_outcome now p (sheets : list (Sheet num)) :
  files p <> [] ->
  Forall2 (fun f sh => readFile f = inr sh) (files p) sheets ->
  let allHeaders := List.concat (map headers sheets) in
  exportAllHeaders now p
  = match allHeaders with
    | [] =>
        settled p "Header Error: No headers found in selected files." "#ef4444"
          (processBtn_disabled p) (condensedBtn_disabled p) []
    | _ =>
        settled p
          ("Exported " ++ pretty (length allHeaders) ++ " total headers to TXT.")
          "#22c55e" (processBtn_disabled p) (condensedBtn_disabled p)
          [TextFile ("exported_headers_" ++ timestamp now ++ ".txt")
             (String.concat (String "010" "") allHeaders)]
    end.
Proof.
  intros Hne Hread allHeaders. unfold exportAllHeaders.
  destruct (files p) as [|f fs] eqn:Hfiles; [done|].
  cbn [files begin_headers]. rewrite Hfiles.
  rewrite (read_all_headers_ok _ _ [] Hread). cbn [app]. fold allHeaders.
  unfold after_headers.
  destruct allHeaders as [|h rest] eqn:Hh.
  - cbn. unfold settled. rewrite app_nil_r. reflexivity.
  - cbn [length Nat.eqb].
    unfold settled, end_headers, updateStatus, add_download.
    cbn [files isProcessing statusText statusColor processBtn_disabled
         condensedBtn_disabled headersBtn_disabled downloads begin_headers].
    by rewrite Hfiles.
Qed.

End PageFacts.

Section PageRuns.
Context {num : Type} {HN : JsNumber num} {HS : JsStringOps}
  {HW : App.XlsxWriter num}.
Import App.
Implicit Types (p : Page num) (fs : list (File num)) (now : string)
  (ev : event num) (w : World num) (t : Task num).

Local Ltac unfold_handlers :=
  unfold end_processing, end_headers, catch_processing, catch_headers,
    updateStatus, add_download, begin_processing, begin_headers;
  cbn [files isProcessing statusText statusColor processBtn_disabled
       condensedBtn_disabled headersBtn_disabled downloads].

(** The end of [processFiles], however it goes: it touches the status and
    adds at most one workbook, which is not empty. *)
Lemma after_reading_frame now (condensed : bool) (allData : list (obj num)) p :
  files (after_reading now condensed allData p) = files p
  /\ exists ds,
      downloads (after_reading now condensed allData p) = downloads p ++ ds
      /\ Forall nonempty_download ds.
Proof.
  unfold after_reading, exportFile.
  destruct (Nat.eqb (length (normalized (normalizeData allData))) 0) eqn:Hlen.
  { split; [done|]. exists []. by rewrite app_nil_r. }
  apply length_eqb_0 in Hlen. destruct condensed.
  - destruct (write_error _).
    + split; [done|]. exists []. by rewrite app_nil_r.
    + split; [done|]. eexists [_]. split; [reflexivity|].
      apply List.Forall_cons; [|apply List.Forall_nil].
      simpl. unfold generateCondensedData.
      intros Hnil. apply Hlen. by apply map_eq_nil in Hnil.
  - destruct (write_error _).
    + split; [done|]. exists []. by rewrite app_nil_r.
    + destruct (stats (normalizeData allData)).
      * split; [done|]. eexists [_]. split; [reflexivity|].
        apply List.Forall_cons; [done | apply List.Forall_nil].
      * split; [done|]. eexists [_]. split; [reflexivity|].
        apply List.Forall_cons; [done | apply List.Forall_nil].
Qed.

Lemma after_headers_frame now (allHeaders : list string) p :
  files (after_headers now allHeaders p) = files p
  /\ processBtn_disabled (after_headers now allHeaders p) = processBtn_disabled p
  /\ condensedBtn_disabled (after_headers now allHeaders p)
     = condensedBtn_disabled p
  /\ exists ds,
      downloads (after_headers now allHeaders p) = downloads p ++ ds
      /\ Forall nonempty_download ds.
Proof.
  unfold after_headers. destruct (Nat.eqb (length allHeaders) 0).
  - repeat split. exists []. by rewrite app_nil_r.
  - repeat split. eexists [_]. split; [reflexivity|].
    apply List.Forall_cons; [done | apply List.Forall_nil].
Qed.

(** A read that settles: the handler goes on waiting and the page is as it
    was, or the handler ends. *)
Lemma resume_cases now t p :
  (exists t', resume now t p = (p, Some t') /\ is_processing t' = is_processing t)
  \/ (exists q,
        resume now t p = (q, None)
        /\ files q = files p
        /\ isProcessing q = false
        /\ headersBtn_disabled q = false
        /\ (if is_processing t
            then processBtn_disabled q = false /\ condensedBtn_disabled q = false
            else processBtn_disabled q = processBtn_disabled p
                 /\ condensedBtn_disabled q = condensedBtn_disabled p)
        /\ exists ds,
            downloads q = downloads p ++ ds /\ Forall nonempty_download ds).
Proof.
  destruct t as [condensed file rest allData|file rest allHeaders]; cbn [resume].
  - destruct (readFile file) as [message|sheet].
    + right. eexists. split; [reflexivity|]. cbn.
      repeat split. exists []. by rewrite app_nil_r.
    + destruct rest as [|next rest'].
      * right. eexists. split; [reflexivity|].
        destruct (after_reading_frame now condensed (allData ++ data sheet) p)
          as (Hf & ds & Hds & Hne).
        cbn. repeat split; [done|]. by exists ds.
      * left. by eexists.
  - destruct (readFile file) as [message|sheet].
    + right. eexists. split; [reflexivity|]. cbn.
      repeat split. exists []. by rewrite app_nil_r.
    + destruct rest as [|next rest'].
      * right. eexists. split; [reflexivity|].
        destruct (after_headers_frame now (allHeaders ++ headers sheet) p)
          as (Hf & Hb1 & Hb2 & ds & Hds & Hne).
        cbn. repeat split; [done | done | done |]. by exists ds.
      * left. by eexists.
Qed.

Lemma filter_valid_Forall fs :
  Forall (fun f => valid_name (name f) = true)
    (List.filter (fun file => valid_name (name file)) fs).
Proof.
  apply Forall_forall. intros f Hin. apply list_elem_of_In in Hin.
  by apply filter_In in Hin as [_ ?].
Qed.

Lemma files_handleFiles (newFiles : list (File num)) p :
  files (handleFiles newFiles p)
  = if isProcessing p then files p
    else files p ++ List.filter (fun file => valid_name (name file)) newFiles.
Proof.
  unfold handleFiles. destruct (isProcessing p); [done|].
  destruct (Nat.eqb (length (List.filter _ newFiles)) 0) eqn:Hlen; cbn.
  - apply Nat.eqb_eq, nil_length_inv in Hlen. by rewrite Hlen, app_nil_r.
  - done.
Qed.

Lemma downloads_handleFiles (newFiles : list (File num)) p :
  downloads (handleFiles newFiles p) = downloads p.
Proof.
  unfold handleFiles. destruct (isProcessing p); [done|].
  by destruct (Nat.eqb (length (List.filter _ newFiles)) 0).
Qed.

Lemma isProcessing_handleFiles (newFiles : list (File num)) p :
  isProcessing (handleFiles newFiles p) = isProcessing p.
Proof.
  unfold handleFiles. destruct (isProcessing p) eqn:Hp; [done|].
  by destruct (Nat.eqb (length (List.filter _ newFiles)) 0).
Qed.

(** [handleFiles] leaves the buttons as they are, or it has added files
    and enabled the three. *)
Lemma buttons_handleFiles (newFiles : list (File num)) p :
  (files (handleFiles newFiles p) = files p
   /\ processBtn_disabled (handleFiles newFiles p) = processBtn_disabled p
   /\ condensedBtn_disabled (handleFiles newFiles p) = condensedBtn_disabled p
   /\ headersBtn_disabled (handleFiles newFiles p) = headersBtn_disabled p)
  \/ (processBtn_disabled (handleFiles newFiles p) = false
      /\ condensedBtn_disabled (handleFiles newFiles p) = false
      /\ headersBtn_disabled (handleFiles newFiles p) = false).
Proof.
  unfold handleFiles. destruct (isProcessing p); [by left|].
  destruct (Nat.eqb (length (List.filter _ newFiles)) 0) eqn:Hlen.
  - by left.
  - right. cbn. rewrite length_app. apply length_eqb_0 in Hlen.
    destruct (List.filter _ newFiles) as [|f fs]; [done|].
    rewrite Nat.add_comm. by repeat split.
Qed.

Lemma start_processing_frame (condensed : bool) w :
  files (page (start_processing condensed w)) = files (page w)
  /\ downloads (page (start_processing condensed w)) = downloads (page w).
Proof.
  unfold start_processing. destruct (files (page w)) eqn:Hf; [done|].
  cbn. by rewrite Hf.
Qed.

Lemma start_headers_frame w :
  files (page (start_headers w)) = files (page w)
  /\ downloads (page (start_headers w)) = downloads (page w).
Proof.
  unfold start_headers. destruct (files (page w)) eqn:Hf; [done|].
  cbn. by rewrite Hf.
Qed.

(** One event: files and downloads are only added at the end; the added
    files have an accepted name and the added workbooks are not empty. *)
Lemma step_effect w ev :
  exists fs (ds : list (Download num)),
    files (page (step w ev)) = files (page w) ++ fs
    /\ downloads (page (step w ev)) = downloads (page w) ++ ds
    /\ Forall (fun f => valid_name (name f) = true) fs
    /\ Forall nonempty_download ds.
Proof.
  assert (exists fs (ds : list (Download num)),
             files (page w) = files (page w) ++ fs
             /\ downloads (page w) = downloads (page w) ++ ds
             /\ Forall (fun f => valid_name (name f) = true) fs
             /\ Forall nonempty_download ds) as Hsame.
  { exists [], []. rewrite !app_nil_r.
    split; [done|]. split; [done|]. split; apply List.Forall_nil. }
  destruct ev as [newFiles| | | |i now]; cbn [step].
  - cbn [page]. rewrite files_handleFiles, downloads_handleFiles.
    destruct (isProcessing (page w)); [exact Hsame|].
    exists (List.filter (fun file => valid_name (name file)) newFiles), [].
    rewrite app_nil_r. split; [done|]. split; [done|].
    split; [apply filter_valid_Forall | apply List.Forall_nil].
  - destruct (processBtn_disabled (page w)); [exact Hsame|].
    by destruct (start_processing_frame false w) as [-> ->].
  - destruct (condensedBtn_disabled (page w)); [exact Hsame|].
    by destruct (start_processing_frame true w) as [-> ->].
  - destruct (headersBtn_disabled (page w)); [exact Hsame|].
    by destruct (start_headers_frame w) as [-> ->].
  - destruct (tasks w !! i) as [t|]; [|exact Hsame].
    destruct (resume_cases now t (page w))
      as [(t' & -> & _)|(q & -> & Hf & _ & _ & _ & ds & Hds & Hne)].
    + exact Hsame.
    + cbn [page]. exists [], ds. rewrite app_nil_r.
      split; [done|]. split; [done|]. split; [apply List.Forall_nil | done].
Qed.

Lemma existsb_delete {A} (f : A -> bool) (l : list A) i :
  existsb f (delete i l) = false ->
  (forall x, l !! i = Some x -> f x = false) ->
  existsb f l = false.
Proof.
  revert i. induction l as [|a l IH]; intros i; [done|].
  destruct i as [|i]; simpl.
  - intros Hl Ha. by rewrite (Ha a eq_refl).
  - intros [Ha Hl]%orb_false_iff Hx. rewrite Ha. simpl. by apply (IH i).
Qed.

Lemma existsb_insert {A} (f : A -> bool) (l : list A) i x y :
  l !! i = Some x -> f y = f x ->
  existsb f (<[i := y]> l) = existsb f l.
Proof.
  revert i. induction l as [|a l IH]; intros i; [done|].
  destruct i as [|i]; simpl.
  - intros [= ->] ->. done.
  - intros Hl Hy. by rewrite (IH i Hl Hy).
Qed.

(** One event keeps the buttons that the waiting handlers account for. *)
Lemma step_accounted w ev : accounted w -> accounted (step w ev).
Proof.
  intros Hacc. pose proof Hacc as [Ha Hb].
  destruct ev as [newFiles| | | |i now]; cbn [step].
  - split; cbn [page tasks].
    + intros Hno Hne.
      destruct (buttons_handleFiles newFiles (page w))
        as [(Hf & -> & -> & _)|(-> & -> & _)]; [|done].
      apply Ha; [done|]. by rewrite <- Hf.
    + intros Hts. destruct (Hb Hts) as [Hproc Hh].
      rewrite isProcessing_handleFiles. split; [done|]. intros Hne.
      destruct (buttons_handleFiles newFiles (page w))
        as [(Hf & _ & _ & ->)|(_ & _ & ->)]; [|done].
      apply Hh. by rewrite <- Hf.
  - destruct (processBtn_disabled (page w)); [exact Hacc|].
    unfold start_processing.
    destruct (files (page w)) eqn:Hf; [exact Hacc|].
    split; cbn [page tasks].
    + rewrite existsb_app. cbn. by rewrite orb_true_r.
    + intros Hts. by apply app_eq_nil in Hts as [_ ?].
  - destruct (condensedBtn_disabled (page w)); [exact Hacc|].
    unfold start_processing.
    destruct (files (page w)) eqn:Hf; [exact Hacc|].
    split; cbn [page tasks].
    + rewrite existsb_app. cbn. by rewrite orb_true_r.
    + intros Hts. by apply app_eq_nil in Hts as [_ ?].
  - destruct (headersBtn_disabled (page w)); [exact Hacc|].
    unfold start_headers.
    destruct (files (page w)) eqn:Hf; [exact Hacc|].
    split; cbn [page tasks].
    + rewrite existsb_app. cbn. rewrite orb_false_r. intros Hno _.
      by apply Ha.
    + intros Hts. by apply app_eq_nil in Hts as [_ ?].
  - destruct (tasks w !! i) as [t|] eqn:Hi; [|exact Hacc].
    destruct (resume_cases now t (page w))
      as [(t' & -> & Hk)|(q & -> & Hf & Hproc & Hh & Hbtn & _)].
    + split; cbn [page tasks].
      * rewrite (existsb_insert _ _ _ _ _ Hi Hk). exact Ha.
      * intros Hts. apply (f_equal (@length _)) in Hts.
        rewrite length_insert in Hts. apply lookup_lt_Some in Hi.
        simpl in Hts. lia.
    + split; cbn [page tasks].
      * intros Hno Hne. destruct (is_processing t) eqn:Ht; [done|].
        destruct Hbtn as [-> ->]. apply Ha; [|by rewrite <- Hf].
        apply (existsb_delete _ _ i Hno). intros x Hx.
        rewrite Hi in Hx. by injection Hx as <-.
      * done.
Qed.

(** X22: from a page with no files, no handler running and no downloads,
    whatever the user does, however the reads go and in whatever order
    they settle: every file in the list has an accepted name, no exported
    workbook is empty, and whenever no handler waits the page is idle: no
    handler is marked as running and, with files in the list, the three
    buttons are enabled. *)
Theorem page_stays_in_order p (evs : list (event num)) :
  files p = [] ->
  isProcessing p = false ->
  downloads p = [] ->
  Forall (fun f => valid_name (name f) = true)
    (files (page (run (at_rest p) evs)))
  /\ Forall nonempty_download (downloads (page (run (at_rest p) evs)))
  /\ (tasks (run (at_rest p) evs) = [] -> idle (page (run (at_rest p) evs))).
Proof.
  intros Hfiles Hproc Hdl.
  assert (Forall (fun f => valid_name (name f) = true) (files (page (at_rest p)))
          /\ Forall nonempty_download (downloads (page (at_rest p)))
          /\ accounted (at_rest p)) as Hinv.
  { cbn. rewrite Hfiles, Hdl.
    split; [apply List.Forall_nil|]. split; [apply List.Forall_nil|].
    split; [by intros _ ?|]. intros _. split; [done|]. by intros ?. }
  generalize dependent (at_rest p). clear Hfiles Hproc Hdl. unfold run.
  induction evs as [|ev evs IH]; intros w Hinv.
  - destruct Hinv as (Hf & Hd & Ha & Hb). cbn [fold_left].
    split; [done|]. split; [done|]. intros Hts.
    destruct (Hb Hts) as [Hproc Hh]. split; [done|]. intros Hne.
    assert (existsb is_processing (tasks w) = false) as Hno by by rewrite Hts.
    destruct (Ha Hno Hne) as [? ?].
    repeat split; [done | done | by apply Hh].
  - cbn [fold_left]. apply IH. destruct Hinv as (Hf & Hd & Hacc).
    destruct (step_effect w ev) as (fs & ds & -> & -> & Hfs & Hds).
    split; [by apply Forall_app|]. split; [by apply Forall_app|].
    by apply step_accounted.
Qed.

(** X23: the page never takes a file out of its list and never takes back
    a download: after any events, with handlers waiting or not, the
    earlier list and the earlier downloads are still there, in front. *)
Theorem nothing_is_removed w (evs : list (event num)) :
  files (page w) `prefix_of` files (page (run w evs))
  /\ downloads (page w) `prefix_of` downloads (page (run w evs)).
Proof.
  revert w. unfold run. induction evs as [|ev evs IH]; intros w; [done|].
  cbn [fold_left]. destruct (IH (step w ev)) as [Hf Hd].
  destruct (step_effect w ev) as (fs & ds & Hfs & Hds & _).
  split.
  - etrans; [|exact Hf]. rewrite Hfs. by apply prefix_app_r.
  - etrans; [|exact Hd]. rewrite Hds. by apply prefix_app_r.
Qed.

(** A handler that waits alone, with each read settling in turn, ends as
    the loop run from start to end says. *)
Lemma processing_alone now (condensed : bool) file rest
    (allData : list (obj num)) p :
  exists n,
    n <= length (file :: rest)
    /\ run {| page := p; tasks := [Processing condensed file rest allData] |}
         (replicate n (ReadSettles 0 now))
       = at_rest
           (end_processing
              match read_all_data (file :: rest) allData with
              | inl message => catch_processing message p
              | inr allData' => after_reading now condensed allData' p
              end).
Proof.
  revert file allData. induction rest as [|next rest IH]; intros file allData.
  - exists 1. split; [done|]. cbn.
    by destruct (readFile file).
  - cbn [read_all_data]. destruct (readFile file) as [message|sheet] eqn:Hr.
    + exists 1. split; [cbn; lia|]. cbn. by rewrite Hr.
    + destruct (IH next (allData ++ data sheet)) as (n & Hn & Hrun).
      exists (S n). split; [cbn in *; lia|].
      cbn [replicate run fold_left]. cbn [step tasks lookup list_lookup resume page].
      rewrite Hr. cbn [list_insert insert]. exact Hrun.
Qed.

Lemma extracting_alone now file rest (allHeaders : list string) p :
  exists n,
    n <= length (file :: rest)
    /\ run {| page := p; tasks := [Extracting file rest allHeaders] |}
         (replicate n (ReadSettles 0 now))
       = at_rest
           (end_headers
              match read_all_headers (file :: rest) allHeaders with
              | inl message => catch_headers message p
              | inr allHeaders' => after_headers now allHeaders' p
              end).
Proof.
  revert file allHeaders. induction rest as [|next rest IH]; intros file allHeaders.
  - exists 1. split; [done|]. cbn.
    by destruct (readFile file).
  - cbn [read_all_headers]. destruct (readFile file) as [message|sheet] eqn:Hr.
    + exists 1. split; [cbn; lia|]. cbn. by rewrite Hr.
    + destruct (IH next (allHeaders ++ headers sheet)) as (n & Hn & Hrun).
      exists (S n). split; [cbn in *; lia|].
      cbn [replicate run fold_left]. cbn [step tasks lookup list_lookup resume page].
      rewrite Hr. cbn [list_insert insert]. exact Hrun.
Qed.

(** X24: a click on an enabled processing button on a page at rest,
    followed by nothing but the reads of that handler settling, leaves the
    page that [processFiles] run from start to end gives, with no handler
    waiting; the reads are at most one per file. *)
Theorem processFiles_alone now (condensed : bool) p :
  (if condensed then condensedBtn_disabled p else processBtn_disabled p) = false ->
  exists n,
    n <= length (files p)
    /\ run (at_rest p)
         ((if condensed then ClickCondensed else ClickProcess)
          :: replicate n (ReadSettles 0 now))
       = at_rest (processFiles now condensed p).
Proof.
  intros Hbtn. unfold processFiles.
  destruct (files p) as [|file rest] eqn:Hf.
  - exists 0. split; [done|].
    destruct condensed; cbn; rewrite Hbtn; unfold start_processing; cbn;
      by rewrite Hf.
  - destruct (processing_alone now condensed file rest []
                (begin_processing
                   (if condensed then "Generating Condensed List..."
                    else "Processing All Data...") p))
      as (n & Hn & Hrun).
    exists n. split; [done|].
    assert (step (at_rest p) (if condensed then ClickCondensed else ClickProcess)
            = {| page := begin_processing
                           (if condensed then "Generating Condensed List..."
                            else "Processing All Data...") p;
                 tasks := [Processing condensed file rest []] |}) as Hstep.
    { destruct condensed; cbn; rewrite Hbtn; unfold start_processing; cbn;
        by rewrite Hf. }
    unfold run in *. cbn [fold_left]. rewrite Hstep, Hrun.
    cbn [files begin_processing]. by rewrite Hf.
Qed.

(** X25: a click on the enabled headers button on a page at rest,
    followed by nothing but the reads of that handler settling, leaves the
    page that [exportAllHeaders] run from start to end gives, with no
    handler waiting; the reads are at most one per file. *)
Theorem exportAllHeaders_alone now p :
  headersBtn_disabled p = false ->
  exists n,
    n <= length (files p)
    /\ run (at_rest p) (ClickHeaders :: replicate n (ReadSettles 0 now))
       = at_rest (exportAllHeaders now p).
Proof.
  intros Hbtn. unfold exportAllHeaders.
  destruct (files p) as [|file rest] eqn:Hf.
  - exists 0. split; [done|].
    cbn. rewrite Hbtn. unfold start_headers. cbn. by rewrite Hf.
  - destruct (extracting_alone now file rest [] (begin_headers p))
      as (n & Hn & Hrun).
    exists n. split; [done|].
    assert (step (at_rest p) ClickHeaders
            = {| page := begin_headers p;
                 tasks := [Extracting file rest []] |}) as Hstep.
    { cbn. rewrite Hbtn. unfold start_headers. cbn. by rewrite Hf. }
    unfold run in *. cbn [fold_left]. rewrite Hstep, Hrun.
    cbn [files begin_headers]. by rewrite Hf.
Qed.

End PageRuns.

(** ** The further properties at concrete inputs *)

Module ConcreteMore.
Import App Samples PageSamples.

#[local] Existing Instance AsciiStrings.
#[local] Existing Instance text_limit.

Example two_files_page :
  map name (files two_files) = ["vendor_a.XLSX"; "vendor_b.csv"]
  /\ statusText two_files = "Ready"
  /\ processBtn_disabled two_files = false.
Proof. by repeat split. Qed.

Lemma mfr_spellings :
  clean " MFR. " = clean "mfr."
  /\ (getMasterKey " MFR. " = getMasterKey "mfr."
      \/ (getMasterKey " MFR. " = " MFR. " /\ getMasterKey "mfr." = "mfr.")).
Proof.
  split; [reflexivity|].
  apply (getMasterKey_case_space_insensitive " MFR. " "mfr."). reflexivity.
Defined.

Lemma vendor_row_renamed :
  mapRow vendor_row
  = [("MPN", VStr "X1"); ("Manufacturer", VStr "Acme"); ("Notes", VStr "")].
Proof.
  refine (eq_trans (mapRow_renames_in_place vendor_row _) _).
  - apply (bool_decide_unpack _). vm_compute. exact I.
  - vm_compute. reflexivity.
Defined.

Lemma first_price_wins :
  exists resident,
    resident ∈ normalized (normalizeData ([acme_x1] ++ priced_x1 :: [repriced_x1]))
    /\ identityKey resident = Some "X1"
    /\ obj_get resident "Price" = VStr "1.00".
Proof.
  apply (first_nonblank_value_wins [acme_x1] priced_x1 [repriced_x1] "X1" "Price"
           (VStr "1.00")).
  - reflexivity.
  - reflexivity.
  - reflexivity.
  - intros r Hr _. apply list_elem_of_singleton in Hr. rewrite Hr. reflexivity.
Defined.

Lemma acme_again :
  normalized (normalizeData ([] ++ acme_x1 :: [priced_x1] ++ acme_x1 :: [zero_mpn]))
  = normalized (normalizeData ([] ++ acme_x1 :: [priced_x1] ++ [zero_mpn])).
Proof.
  apply (repeated_row_is_absorbed [] acme_x1 [priced_x1] [zero_mpn] "X1").
  reflexivity.
Defined.


Lemma stats_of_swapped_rows :
  stats (normalizeData [acme_x1; priced_x1]) = stats (normalizeData [priced_x1; acme_x1]).
Proof.
  apply (stats_order_independent [acme_x1; priced_x1] [priced_x1; acme_x1]).
  apply perm_swap.
Defined.

Lemma normalized_scenario_again :
  stats (normalizeData (normalized (normalizeData [acme_x1; priced_x1])))
  = Some {| merged := 0;
            total := Z.of_nat (length (normalized (normalizeData [acme_x1; priced_x1])));
            original := Z.of_nat (length (normalized (normalizeData [acme_x1; priced_x1]))) |}.
Proof.
  apply (proj2 (normalizeData_idempotent [acme_x1; priced_x1])). discriminate.
Defined.

Lemma out_of_stock_condensed :
  Alist.keys (condense_row out_of_stock) = display_columns
  /\ Forall (fun e => display_cell (snd e)) (condense_row out_of_stock).
Proof.
  apply (condensed_records_uniform [out_of_stock] (condense_row out_of_stock)).
  cbn [generateCondensedData map]. apply list_elem_of_here.
Defined.

Lemma master_export_of_two_files :
  processFiles noon false two_files
  = settled two_files
      ("Done! Key: " ++ String "034" "MPN" ++ String "034" ". Saved "
       ++ "2" ++ " items (Merged " ++ "1" ++ ").") "#22c55e" false false
      [Workbook "master_list_2024-01-02T12-00-00.xlsx"
         [ [("MPN", VStr "X1"); ("Manufacturer", VStr "Acme");
            ("Price", VStr "1.00")];
           [("MPN", VNum 0%Z); ("Description", VStr "capacitor")] ]].
Proof.
  refine (eq_trans
            (processFiles_outcome noon false two_files [vendor_a; vendor_b] _ _) _).
  - discriminate.
  - repeat constructor.
  - vm_compute. reflexivity.
Defined.

Lemma broken_file_stops_the_run :
  processFiles noon true with_broken
  = settled with_broken "Error: File is password-protected" "#ef4444"
      false false [].
Proof.
  refine (eq_trans
            (processFiles_read_failure noon true with_broken
               [file_a] file_broken [file_b] "File is password-protected" _ _ _) _).
  - reflexivity.
  - repeat constructor. by exists vendor_a.
  - reflexivity.
  - reflexivity.
Defined.

Lemma headers_of_two_files :
  exportAllHeaders noon two_files
  = settled two_files "Exported 6 total headers to TXT." "#22c55e" false false
      [TextFile "exported_headers_2024-01-02T12-00-00.txt"
         (String.concat (String "010" "")
            ["MPN"; "Manufacturer"; "Price"; "MPN"; "Manufacturer"; "Price"])].
Proof.
  refine (eq_trans
            (exportAllHeaders_outcome noon two_files [vendor_a; vendor_b] _ _) _).
  - discriminate.
  - repeat constructor.
  - vm_compute. reflexivity.
Defined.

Lemma a_session_stays_in_order :
  Forall (fun f => valid_name (name f) = true)
    (files (page (run (at_rest fresh) a_session)))
  /\ Forall nonempty_download (downloads (page (run (at_rest fresh) a_session)))
  /\ (tasks (run (at_rest fresh) a_session) = [] ->
      idle (page (run (at_rest fresh) a_session))).
Proof.
  apply (page_stays_in_order fresh a_session); reflexivity.
Defined.

(** The session ends with no handler waiting, three files, the headers
    and the condensed list of the first file exported, and the error of
    the master run in the status line. *)
Example a_session_ends :
  tasks (run (at_rest fresh) a_session) = []
  /\ map name (files (page (run (at_rest fresh) a_session)))
     = ["vendor_a.XLSX"; "broken.xls"; "vendor_b.csv"]
  /\ statusText (page (run (at_rest fresh) a_session))
     = "Error: File is password-protected"
  /\ downloads (page (run (at_rest fresh) a_session))
     = [ TextFile "exported_headers_2024-01-02T12-00-00.txt"
           (String.concat (String "010" "") ["MPN"; "Manufacturer"; "Price"]);
         Workbook "condensed_list_2024-01-02T12-00-00.xlsx"
           (generateCondensedData (normalized (normalizeData [acme_x1; zero_mpn]))) ].
Proof. vm_compute. by repeat split. Qed.

(** While [exportAllHeaders] and then a dropped file have cleared the
    flag and enabled the buttons, a second [processFiles] starts before
    the first one has ended. *)
Example two_runs_at_once :
  map is_processing
    (tasks (run (at_rest fresh)
              [DropFiles [file_a]; ClickHeaders; ClickProcess;
               ReadSettles 0 noon; DropFiles [file_b]; ClickProcess]))
  = [true; true].
Proof. vm_compute. reflexivity. Qed.

(** A cell that the writer refuses: the run ends in the [catch] and
    nothing is exported. *)
Example long_cell_stops_the_export :
  statusText (processFiles noon false (handleFiles [file_long] fresh))
  = "Error: Text length must not exceed 32767 characters"
  /\ downloads (processFiles noon false (handleFiles [file_long] fresh)) = [].
Proof. vm_compute. by split. Qed.

Lemma master_run_alone :
  (if false then condensedBtn_disabled two_files
   else processBtn_disabled two_files) = false
  /\ exists n,
      n <= length (files two_files)
      /\ run (at_rest two_files)
           ((if false then ClickCondensed else ClickProcess)
            :: replicate n (ReadSettles 0 noon))
         = at_rest (processFiles noon false two_files).
Proof.
  split; [reflexivity|].
  apply (processFiles_alone noon false two_files). reflexivity.
Defined.

Lemma headers_run_alone :
  headersBtn_disabled two_files = false
  /\ exists n,
      n <= length (files two_files)
      /\ run (at_rest two_files) (ClickHeaders :: replicate n (ReadSettles 0 noon))
         = at_rest (exportAllHeaders noon two_files).
Proof.
  split; [reflexivity|].
  apply (exportAllHeaders_alone noon two_files). reflexivity.
Defined.

End ConcreteMore.
